(** * gorbl: DNSBL lookups

    A shallow embedding of [gorbl.go] (both revisions of the file: the
    free functions [query]/[Lookup] and the [RBL] client with its methods
    [LookupIP]/[Lookup]) together with the parts of Go's [net] and
    [strings] packages the code calls. *)

From Stdlib Require Import ZArith NArith Lia Ascii String List.
From Stdlib.Strings Require Import Byte.
From stdpp Require Import base option list strings.

(** ** Go's [net.IP]: a byte slice of length 4 or 16 (or anything else) *)

Definition IP := list Byte.byte.

Definition IPv4len : nat := 4.
Definition IPv6len : nat := 16.

Definition byte_val (b : Byte.byte) : N := Byte.to_N b.

(** [isZeros p]: every byte of [p] is zero. *)
Definition isZeros (p : IP) : bool := forallb (fun b => Byte.eqb b x00) p.

Definition byte_at (p : IP) (i : nat) (b : Byte.byte) : bool :=
  match p !! i with
  | Some c => Byte.eqb c b
  | None => false
  end.

(** Go's [x != nil] on a value that may be nil. *)
Definition notNil {A} (x : option A) : bool :=
  match x with
  | Some _ => true
  | None => false
  end.

(** [ip.To4()]: the 4-byte form of an IPv4 address, [None] for Go's nil. *)
Definition To4 (ip : IP) : option IP :=
  if Nat.eqb (length ip) IPv4len then Some ip
  else if Nat.eqb (length ip) IPv6len
          && isZeros (take 10 ip)
          && byte_at ip 10 xff
          && byte_at ip 11 xff
       then Some (take 4 (drop 12 ip))
       else None.

(** [net.IPv4(a, b, c, d)]: the 16-byte form of a.b.c.d. *)
Definition v4InV6Prefix : IP :=
  [x00; x00; x00; x00; x00; x00; x00; x00; x00; x00; xff; xff].

Definition IPv4 (a b c d : Byte.byte) : IP := v4InV6Prefix ++ [a; b; c; d].

(** ** Decimal and hexadecimal rendering *)

Definition digit (d : N) : ascii := ascii_of_N (48 + d).

(** The loop of [uitoa]: digits are written from the end of a 20-byte
    buffer, so at most 19 rounds run for a 64-bit value. *)
Fixpoint uitoa_loop (fuel : nat) (val : N) (buf : string) : string :=
  match fuel with
  | O => String (digit val) buf
  | S fuel' =>
      if (10 <=? val)%N
      then let q := (val / 10)%N in
           uitoa_loop fuel' q (String (digit (val - q * 10)) buf)
      else String (digit val) buf
  end.

Definition uitoa (val : N) : string :=
  if (val =? 0)%N then "0" else uitoa_loop 20 val "".

Definition hexDigit (v : N) : ascii :=
  if (v <? 10)%N then ascii_of_N (48 + v) else ascii_of_N (87 + v).

Definition hexByte (b : Byte.byte) : string :=
  String (hexDigit (byte_val b / 16)) (String (hexDigit (byte_val b mod 16)) "").

Fixpoint hexString (p : IP) : string :=
  match p with
  | [] => ""
  | b :: p' => hexByte b +:+ hexString p'
  end.

(** [appendHex]: a 16-bit group in hexadecimal without leading zeros. *)
Fixpoint hexDigits (fuel : nat) (v : N) (acc : string) : string :=
  match fuel with
  | O => acc
  | S fuel' =>
      if (v =? 0)%N then acc
      else hexDigits fuel' (v / 16) (String (hexDigit (v mod 16)) acc)
  end.

Definition appendHex (v : N) : string :=
  if (v =? 0)%N then "0" else hexDigits 8 v "".

(** The eight 16-bit groups of a 16-byte address. *)
Fixpoint groups (p : IP) : list N :=
  match p with
  | hi :: lo :: p' => (byte_val hi * 256 + byte_val lo)%N :: groups p'
  | _ => []
  end.

(** Length of the run of zero groups at the head of [g]. *)
Fixpoint zeroRun (g : list N) : nat :=
  match g with
  | v :: g' => if (v =? 0)%N then S (zeroRun g') else O
  | [] => O
  end.

(** The first longest run of zero groups, as (start, length), scanning
    from group index [i]; a later run replaces the best one only when it
    is strictly longer, and the scan resumes after a run it has taken. *)
Fixpoint longestZeroRun (fuel : nat) (i : nat) (g : list N) (best : nat * nat)
  : nat * nat :=
  match fuel with
  | O => best
  | S fuel' =>
      match g with
      | [] => best
      | _ :: g' =>
          let n := zeroRun g in
          if (0 <? n)%nat && (best.2 <? n)%nat
          then longestZeroRun fuel' (i + n) (drop n g) (i, n)
          else longestZeroRun fuel' (i + 1) g' best
      end
  end.

(** The groups from index [i] on, with the run [(e0, n)] written "::". *)
Fixpoint ipv6Text (fuel : nat) (i : nat) (g : list N) (run : option (nat * nat))
  : string :=
  match fuel with
  | O => ""
  | S fuel' =>
      match g with
      | [] => ""
      | v :: g' =>
          match run with
          | Some (e0, n) =>
              if Nat.eqb i e0
              then "::" +:+
                   match drop n g with
                   | [] => ""
                   | w :: g'' => appendHex w +:+ ipv6Text fuel' (i + n + 1) g'' None
                   end
              else (if (0 <? i)%nat then ":" else "") +:+ appendHex v
                   +:+ ipv6Text fuel' (i + 1) g' run
          | None =>
              (if (0 <? i)%nat then ":" else "") +:+ appendHex v
              +:+ ipv6Text fuel' (i + 1) g' None
          end
      end
  end.

Definition ipv6String (p : IP) : string :=
  let g := groups p in
  let best := longestZeroRun (length g) 0 g (0, 0)%nat in
  ipv6Text (S (length g)) 0 g (if (best.2 <=? 1)%nat then None else Some best).

(** [ip.String()]. *)
Definition IP_String (ip : IP) : string :=
  if Nat.eqb (length ip) 0 then "<nil>"
  else match To4 ip with
       | Some [a; b; c; d] =>
           uitoa (byte_val a) +:+ "." +:+ uitoa (byte_val b) +:+ "." +:+
           uitoa (byte_val c) +:+ "." +:+ uitoa (byte_val d)
       | _ =>
           if negb (Nat.eqb (length ip) IPv6len) then "?" +:+ hexString ip
           else ipv6String ip
       end.

(** ** Go's [strings.Split] and [strings.Join] *)

(** The scan of [strings.Split s sep] for a non-empty [sep]: [cur] is the
    piece being collected, [skip] the number of bytes of a separator just
    matched that are still to be passed over. *)
Fixpoint Split_scan (sep : string) (skip : nat) (cur : string) (s : string)
  : list string :=
  match s with
  | "" => [cur]
  | String c s' =>
      match skip with
      | S k => Split_scan sep k cur s'
      | O =>
          if String.prefix sep s
          then cur :: Split_scan sep (String.length sep - 1) "" s'
          else Split_scan sep 0 (cur +:+ String c "") s'
      end
  end.

(** With an empty separator Go splits after each character. *)
Fixpoint explode (s : string) : list string :=
  match s with
  | "" => []
  | String c s' => String c "" :: explode s'
  end.

Definition Split (s sep : string) : list string :=
  match sep with
  | "" => explode s
  | _ => Split_scan sep 0 "" s
  end.

Fixpoint Join (elems : list string) (sep : string) : string :=
  match elems with
  | [] => ""
  | [x] => x
  | x :: rest => x +:+ sep +:+ Join rest sep
  end.

(** ** [Reverse] *)

(** Go's [a[i]] on a slice: [None] stands for the run-time panic of an
    index out of range. *)
Definition at_index {A} (a : list A) (i : Z) : option A :=
  if (i <? 0)%Z then None else a !! Z.to_nat i.

(** The loop
    [for i, j := 0, len(a)-1; i < len(a)/2; i, j = i+1, j-1 { a[i], a[j] = a[j], a[i] }]
    with [i] and [j] of Go's type int. *)
Fixpoint swap_loop (fuel : nat) (i j : Z) (a : list string)
  : option (list string) :=
  match fuel with
  | O => Some a
  | S fuel' =>
      if (i <? Z.of_nat (length a) / 2)%Z
      then match at_index a j, at_index a i with
           | Some aj, Some ai =>
               swap_loop fuel' (i + 1)%Z (j - 1)%Z
                 (<[Z.to_nat j := ai]> (<[Z.to_nat i := aj]> a))
           | _, _ => None
           end
      else Some a
  end.

Definition reverse_in_place (a : list string) : option (list string) :=
  swap_loop (length a) 0%Z (Z.of_nat (length a) - 1)%Z a.

(** [Reverse]: the octets of an IPv4 address in reverse order, the empty
    string for any other address.  The inner [None] branch is the panic
    of the swap loop, which [reverse_in_place_rev] excludes. *)
Definition Reverse (ip : IP) : string :=
  if notNil (To4 ip)
  then
    let splitAddress := Split (IP_String ip) "." in
    match reverse_in_place splitAddress with
    | Some splitAddress' => Join splitAddress' "."
    | None => ""
    end
  else "".

(** ** Reading a dotted quad back ([net.ParseIP], IPv4 form) *)

Definition isDigit (c : ascii) : bool :=
  (48 <=? N_of_ascii c)%N && (N_of_ascii c <=? 57)%N.

(** [dtoi] on a whole field: decimal digits only, at least one. *)
Fixpoint dtoi_from (acc : N) (s : string) : option N :=
  match s with
  | "" => Some acc
  | String c s' =>
      if isDigit c then dtoi_from (acc * 10 + (N_of_ascii c - 48)) s' else None
  end.

(** One component of a dotted quad: decimal, at most 255, and no leading
    zero in front of further digits. *)
Definition parseOctet (s : string) : option Byte.byte :=
  match s with
  | "" => None
  | String c s' =>
      if Ascii.eqb c "0" && negb (String.eqb s' "") then None
      else match dtoi_from 0 s with
           | Some n => if (n <=? 255)%N then Byte.of_N n else None
           | None => None
           end
  end.

Definition parseIPv4 (s : string) : option IP :=
  match Split s "." with
  | [a; b; c; d] =>
      match parseOctet a, parseOctet b, parseOctet c, parseOctet d with
      | Some a', Some b', Some c', Some d' => Some (IPv4 a' b' c' d')
      | _, _, _, _ => None
      end
  | _ => None
  end.

(** ** The client, the resolver and the result data model *)

Section Gorbl.

(** Go's [error] values, [context.Context] values, and the state of the
    network as the resolver sees it: a resolution call reads and may
    change the state, so two calls with the same name can answer
    differently. *)
Context {error context_Context World : Type}.
Variable context_Background : context_Context.

Definition M (A : Type) : Type := World -> A * World.

Definition mreturn {A} (x : A) : M A := fun w => (x, w).

Definition mbind' {A B} (m : M A) (k : A -> M B) : M B :=
  fun w => let (x, w') := m w in k x w'.

Notation "'call' x <- m ; k" := (mbind' m (fun x => k))
  (at level 10, x pattern, m at level 100, k at level 200).

Record Result := {
  Address : string;
  Listed : bool;
  ListedAddress : string;
  Text : string;
  Error : bool;
  ErrorType : option error
}.

Record RBLResults := {
  List : string;
  Host : string;
  Results : list Result
}.

(** [net.IPAddr]. *)
Record IPAddr := { IPAddr_IP : IP; Zone : string }.

(** [net.Resolver]: the three resolution calls the client makes, each
    returning Go's pair of a slice and an error. *)
Record Resolver := {
  LookupHost : context_Context -> string -> M (list string * option error);
  LookupTXT : context_Context -> string -> M (list string * option error);
  LookupIPAddr : context_Context -> string -> M (list IPAddr * option error)
}.

Record RBL := {
  hostname : string;
  lookupTxt : bool;
  resolver : Resolver
}.

(** What a zero [net.Resolver] does; [net.DefaultResolver] is one too. *)
Variable net_Resolver : Resolver.

Definition NewRBL (hostname : string) (lookupTxt : bool) : RBL :=
  {| hostname := hostname; lookupTxt := lookupTxt; resolver := net_Resolver |}.

(** Field assignments [res.Text = t], [res.Error = true; res.ErrorType = err]. *)
Definition set_Text (res : Result) (t : string) : Result :=
  {| Address := Address res; Listed := Listed res;
     ListedAddress := ListedAddress res; Text := t;
     Error := Error res; ErrorType := ErrorType res |}.

Definition set_Error (res : Result) (err : option error) : Result :=
  {| Address := Address res; Listed := Listed res;
     ListedAddress := ListedAddress res; Text := Text res;
     Error := true; ErrorType := err |}.

Definition set_Results (ret : RBLResults) (rs : list Result) : RBLResults :=
  {| List := List ret; Host := Host ret; Results := rs |}.

(** [fmt.Sprintf("%s.%s", a, b)]. *)
Definition Sprintf_s_dot_s (a b : string) : string := a +:+ "." +:+ b.

(** *** The client's methods *)

(** The body of [for _, addr := range addrs] in [LookupIP], appending to
    the findings collected so far. *)
Fixpoint LookupIP_range (r : RBL) (ctx : context_Context) (ip : IP)
    (ipHostname : string) (err : option error)
    (addrs : list string) (results : list Result) : M (list Result) :=
  match addrs with
  | [] => mreturn results
  | addr :: addrs' =>
      let res := {| Address := IP_String ip; Listed := true;
                    ListedAddress := addr; Text := "";
                    Error := false; ErrorType := None |} in
      call res <-
        (if lookupTxt r
         then call (txt, _) <- LookupTXT (resolver r) ctx ipHostname;
              mreturn (match txt with
                       | t :: _ => set_Text res t
                       | [] => res
                       end)
         else mreturn res);
      let res := if notNil err then set_Error res err else res in
      LookupIP_range r ctx ip ipHostname err addrs' (results ++ [res])
  end.

Definition RBL_LookupIP (r : RBL) (ctx : context_Context) (ip : IP)
  : M RBLResults :=
  let ret := {| Host := IP_String ip; List := hostname r; Results := [] |} in
  let ipHostname := Sprintf_s_dot_s (Reverse ip) (hostname r) in
  call (addrs, err) <- LookupHost (resolver r) ctx ipHostname;
  if (length addrs <? 1)%nat
  then
    let res := {| Address := IP_String ip; Listed := false;
                  ListedAddress := ""; Text := "";
                  Error := false; ErrorType := None |} in
    let res := if notNil err then set_Error res err else res in
    mreturn (set_Results ret (Results ret ++ [res]))
  else
    call results <- LookupIP_range r ctx ip ipHostname err addrs (Results ret);
    mreturn (set_Results ret results).

(** The body of [for _, addr := range addrs] in [Lookup]. *)
Fixpoint Lookup_range (r : RBL) (ctx : context_Context)
    (addrs : list IPAddr) (results : list Result) : M (list Result) :=
  match addrs with
  | [] => mreturn results
  | addr :: addrs' =>
      if notNil (To4 (IPAddr_IP addr))
      then call qResults <- RBL_LookupIP r ctx (IPAddr_IP addr);
           Lookup_range r ctx addrs' (results ++ Results qResults)
      else Lookup_range r ctx addrs' results
  end.

Definition RBL_Lookup (r : RBL) (ctx : context_Context) (targetHost : string)
  : M RBLResults :=
  let ret := {| Host := targetHost; List := hostname r; Results := [] |} in
  call (addrs, err) <- LookupIPAddr (resolver r) ctx targetHost;
  if notNil err then mreturn ret
  else call results <- Lookup_range r ctx addrs (Results ret);
       mreturn (set_Results ret results).

(** *** The free functions of the earlier revision *)

(** [net.LookupHost], [net.LookupTXT] and [net.LookupIP]: the default
    resolver under the background context; [net.LookupIP] keeps the IP
    of each answer and returns no addresses with an error. *)
Definition net_LookupHost (host : string) : M (list string * option error) :=
  LookupHost net_Resolver context_Background host.

Definition net_LookupTXT (name : string) : M (list string * option error) :=
  LookupTXT net_Resolver context_Background name.

Definition net_LookupIP (host : string) : M (list IP * option error) :=
  call (addrs, err) <- LookupIPAddr net_Resolver context_Background host;
  if notNil err then mreturn ([], err)
  else mreturn (map IPAddr_IP addrs, None).

Fixpoint query_range (ip : IP) (lookupTxt : bool) (lookup : string)
    (err : option error) (addrs : list string) (ret : list Result)
  : M (list Result) :=
  match addrs with
  | [] => mreturn ret
  | addr :: addrs' =>
      let r := {| Address := IP_String ip; Listed := true;
                  ListedAddress := addr; Text := "";
                  Error := false; ErrorType := None |} in
      call r <-
        (if lookupTxt
         then call (txt, _) <- net_LookupTXT lookup;
              mreturn (match txt with
                       | t :: _ => set_Text r t
                       | [] => r
                       end)
         else mreturn r);
      let r := if notNil err then set_Error r err else r in
      query_range ip lookupTxt lookup err addrs' (ret ++ [r])
  end.

Definition query (rbl : string) (ip : IP) (lookupTxt : bool) : M (list Result) :=
  let ret : list Result := [] in
  let lookup := Sprintf_s_dot_s (Reverse ip) rbl in
  call (addrs, err) <- net_LookupHost lookup;
  if (length addrs <? 1)%nat
  then
    let ret := (ret ++ [ {| Address := IP_String ip; Listed := false;
                            ListedAddress := ""; Text := "";
                            Error := false; ErrorType := None |} ]) in
    let ret := if notNil err
               then match ret with
                    | r0 :: rest => set_Error r0 err :: rest
                    | [] => ret
                    end
               else ret in
    mreturn ret
  else query_range ip lookupTxt lookup err addrs ret.

Fixpoint Lookup_old_range (rblList : string) (lookupTxt : bool)
    (ip : list IP) (results : list Result) : M (list Result) :=
  match ip with
  | [] => mreturn results
  | addr :: ip' =>
      if notNil (To4 addr)
      then call qResults <- query rblList addr lookupTxt;
           Lookup_old_range rblList lookupTxt ip' (results ++ qResults)
      else Lookup_old_range rblList lookupTxt ip' results
  end.

Definition Lookup (rblList targetHost : string) (lookupTxt : bool)
  : M RBLResults :=
  let r := {| List := rblList; Host := targetHost; Results := [] |} in
  call (ip, err) <- net_LookupIP targetHost;
  if notNil err then mreturn r
  else call results <- Lookup_old_range rblList lookupTxt ip (Results r);
       mreturn (set_Results r results).

(** *** The command-line program *)

(** [net.ParseIP] ([None] for its nil result) and the text that
    [fmt.Printf("%+v\n", res)] writes for a finding, less the line end. *)
Variable net_ParseIP : string -> option IP.
Variable Printf_plus_v : Result -> string.

(** The part of [main] that ends in the result to print, or in the
    message of an early return. *)
Definition main_lookup (host ip : string) : M (string + RBLResults) :=
  if (0 <? String.length host)%nat && (0 <? String.length ip)%nat
  then mreturn (inl "Only one of IP or host can be supplied")
  else
    let rbl := NewRBL "bl.mailspike.net" true in
    if (0 <? String.length host)%nat
    then call ret <- RBL_Lookup rbl context_Background host;
         mreturn (inr ret)
    else if (0 <? String.length ip)%nat
    then match net_ParseIP ip with
         | None => mreturn (inl "Supplied IP unable to be parsed")
         | Some parsedIP =>
             call ret <- RBL_LookupIP rbl context_Background parsedIP;
             mreturn (inr ret)
         end
    else mreturn (inl "One of IP or host must be supplied").

(** [main] on the values of the flags [-host] and [-ip]: the lines it
    writes to standard output, one for each [Printf]. *)
Definition main (host ip : string) : M (list string) :=
  call ret <- main_lookup host ip;
  match ret with
  | inl message => mreturn [message]
  | inr ret => mreturn (List.map Printf_plus_v (Results ret))
  end.

(** *** Notions used to state the properties *)

(** Running [f] on each element of [l] in order, collecting the results. *)
Fixpoint run_each {A B} (f : A -> M B) (l : list A) : M (list B) :=
  match l with
  | [] => mreturn []
  | x :: l' =>
      call y <- f x;
      call ys <- run_each f l';
      mreturn (y :: ys)
  end.

(** The state of the network after [k] TXT resolutions of [name] in a
    row, starting from [w]. *)
Definition after_TXT (rs : Resolver) (ctx : context_Context) (name : string)
    (k : nat) (w : World) : World :=
  Nat.iter k (fun w' => (LookupTXT rs ctx name w').2) w.

(** The values answered by the TXT resolution of [name] made in state [w]. *)
Definition TXT_values (rs : Resolver) (ctx : context_Context) (name : string)
    (w : World) : list string :=
  (LookupTXT rs ctx name w).1.1.

(** What a finding says, apart from the address it is about. *)
Definition finding_data (f : Result)
  : bool * string * string * bool * option error :=
  (Listed f, ListedAddress f, Text f, Error f, ErrorType f).

(** The data-model invariant of one finding. *)
Definition finding_ok (f : Result) : Prop :=
  (Listed f = false -> ListedAddress f = "" /\ Text f = "") /\
  (Error f = true -> ErrorType f <> None).

End Gorbl.

Arguments M : clear implicits.
Arguments Result : clear implicits.
Arguments RBLResults : clear implicits.
Arguments Resolver : clear implicits.
Arguments RBL : clear implicits.

(** ** Proof-side notions for [Reverse] *)

Fixpoint no_dot (s : string) : bool :=
  match s with
  | "" => true
  | String c s' => negb (Ascii.eqb c ".") && no_dot s'
  end.

(** The dotted quad a.b.c.d. *)
Definition dotted (a b c d : Byte.byte) : string :=
  uitoa (byte_val a) +:+ "." +:+ uitoa (byte_val b) +:+ "." +:+
  uitoa (byte_val c) +:+ "." +:+ uitoa (byte_val d).

(** ** A scripted resolver

    Errors are their messages, there is one context, and the state of
    the network is the number of resolution calls made so far, so that
    successive TXT resolutions of one name answer differently. *)

Definition demo_LookupHost (_ : unit) (name : string)
  : M nat (list string * option string) :=
  fun n =>
    (if String.eqb name "1.1.168.192.bl.example.org"
     then (["127.0.0.2"; "127.0.0.4"], None)
     else if String.eqb name "4.3.2.1.bl.example.org"
     then (["127.0.0.9"], Some "server misbehaving")
     else if String.eqb name "9.9.9.9.bl.example.org"
     then ([], None)
     else ([], Some "no such host"),
     S n).

Definition demo_LookupTXT (_ : unit) (name : string)
  : M nat (list string * option string) :=
  fun n =>
    (if Nat.even n
     then ([], Some "i/o timeout")
     else (["listed, see bl.example.org"; "second value"], None),
     S n).

Definition demo_addrs : list IPAddr :=
  [ {| IPAddr_IP := [xc0; xa8; x01; x01]; Zone := "" |};
    {| IPAddr_IP := [x20; x01; x0d; xb8; x00; x00; x00; x00;
                     x00; x00; x00; x00; x00; x00; x00; x01]; Zone := "" |};
    {| IPAddr_IP := IPv4 x01 x02 x03 x04; Zone := "" |} ].

Definition demo_LookupIPAddr (_ : unit) (host : string)
  : M nat (list IPAddr * option string) :=
  fun n =>
    (if String.eqb host "mail.example.org" then (demo_addrs, None)
     else if String.eqb host "smtp.gmail.com"
     then ([ {| IPAddr_IP := [x09; x09; x09; x09]; Zone := "" |} ], None)
     else if String.eqb host "down.example.org"
     then ([], Some "no such host")
     else ([], None),
     S n).

Definition demo_Resolver : Resolver string unit nat :=
  {| LookupHost := demo_LookupHost;
     LookupTXT := demo_LookupTXT;
     LookupIPAddr := demo_LookupIPAddr |}.

Definition demo_RBL (lookupTxt : bool) : RBL string unit nat :=
  NewRBL demo_Resolver "bl.example.org" lookupTxt.

(** A resolver that answers host resolutions as the scripted one and
    everything else differently. *)
Definition demo_Resolver_other : Resolver string unit nat :=
  {| LookupHost := demo_LookupHost;
     LookupTXT := fun _ _ n => ((["something else"], None), n + 7);
     LookupIPAddr := fun _ _ n => (([], Some "refused"), n) |}.

(** A resolver for the command-line program, which asks bl.mailspike.net. *)
Definition demo_mailspike : Resolver string unit nat :=
  {| LookupHost := fun _ name n =>
       (if String.eqb name "1.1.168.192.bl.mailspike.net"
        then (["127.0.0.10"], None)
        else ([], Some "no such host"), S n);
     LookupTXT := demo_LookupTXT;
     LookupIPAddr := demo_LookupIPAddr |}.

Definition demo_IPv6 : IP :=
  [x20; x01; x0d; xb8; x00; x00; x00; x00;
   x00; x00; x00; x00; x00; x00; x00; x01].

(** A stand-in for [net.ParseIP]: dotted quads, and one IPv6 literal. *)
Definition demo_ParseIP (s : string) : option IP :=
  if String.eqb s "2001:db8::1" then Some demo_IPv6 else parseIPv4 s.

(** A stand-in for the text [Printf] writes for a finding. *)
Definition demo_Printf (f : Result string) : string :=
  Address f +:+ (if Listed f then " listed as " +:+ ListedAddress f
                 else " not listed").

(** * Properties *)

(** ** The swap loop reverses the slice and never indexes out of range *)

Lemma half_ltb (k m : nat) :
  (Z.of_nat k <? Z.of_nat (k + (m + k)) / 2)%Z = (2 <=? m)%nat.
Proof.
  pose proof (Z.div_mod (Z.of_nat (k + (m + k))) 2 ltac:(lia)) as Hd.
  pose proof (Z.mod_pos_bound (Z.of_nat (k + (m + k))) 2 ltac:(lia)) as Hm.
  destruct (Z.ltb_spec (Z.of_nat k) (Z.of_nat (k + (m + k)) / 2));
    destruct (Nat.leb_spec 2 m); try reflexivity; lia.
Qed.

Lemma swap_loop_spec fuel : forall (l1 mid l2 : list string),
  length l1 = length l2 ->
  length mid <= 2 * fuel + 1 ->
  swap_loop fuel (Z.of_nat (length l1))
    (Z.of_nat (length l1 + length mid) - 1)%Z (l1 ++ mid ++ l2)
  = Some (l1 ++ reverse mid ++ l2).
Proof.
  induction fuel as [|fuel IH]; intros l1 mid l2 Hlen Hmid.
  - destruct mid as [|x [|y mid]]; simpl in *; try lia; reflexivity.
  - cbn [swap_loop].
    rewrite !length_app, <- Hlen, half_ltb.
    destruct mid as [|x mid]; [reflexivity|].
    destruct mid as [|y mid _] using rev_ind; [reflexivity|].
    assert (H2 : (2 <=? length (x :: mid ++ [y]))%nat = true).
    { apply Nat.leb_le. simpl. rewrite length_app. simpl. lia. }
    rewrite H2. clear H2.
    unfold at_index.
    assert (Hj : (Z.of_nat (length l1 + length (x :: mid ++ [y])) - 1)%Z
                 = Z.of_nat (length l1 + S (length mid))).
    { simpl. rewrite length_app. simpl. lia. }
    rewrite Hj.
    destruct (Z.ltb_spec (Z.of_nat (length l1 + S (length mid))) 0); [lia|].
    destruct (Z.ltb_spec (Z.of_nat (length l1)) 0); [lia|].
    rewrite !Nat2Z.id.
    assert (Ha : (l1 ++ (x :: mid ++ [y]) ++ l2)
                 = ((l1 ++ x :: mid) ++ y :: l2)).
    { simpl. rewrite <- !app_assoc. reflexivity. }
    rewrite Ha.
    assert (Hl : length (l1 ++ x :: mid) = length l1 + S (length mid)).
    { rewrite length_app. reflexivity. }
    assert (Hjv : ((l1 ++ x :: mid) ++ y :: l2) !! (length l1 + S (length mid))
                  = Some y).
    { rewrite <- Hl. apply list_lookup_middle. reflexivity. }
    assert (Hiv : ((l1 ++ x :: mid) ++ y :: l2) !! length l1 = Some x).
    { rewrite <- app_assoc. apply list_lookup_middle. reflexivity. }
    assert (Hins : <[length l1 + S (length mid) := x]>
                     (<[length l1 := y]> ((l1 ++ x :: mid) ++ y :: l2))
                   = ((l1 ++ [y]) ++ mid ++ x :: l2)).
    { rewrite <- !app_assoc. simpl.
      rewrite (insert_app_r_alt l1 _ (length l1)) by lia.
      rewrite Nat.sub_diag. simpl.
      rewrite (insert_app_r_alt l1) by lia.
      replace (length l1 + S (length mid) - length l1) with (S (length mid)) by lia.
      simpl. f_equal. f_equal.
      rewrite (insert_app_r_alt mid) by lia.
      rewrite Nat.sub_diag. reflexivity. }
    rewrite Hjv, Hiv, Hins.
    specialize (IH (l1 ++ [y]) mid (x :: l2)).
    rewrite !length_app in IH. simpl in IH.
    replace (Z.of_nat (length l1) + 1)%Z with (Z.of_nat (length l1 + 1)) by lia.
    replace (Z.of_nat (length l1 + S (length mid)) - 1)%Z
      with (Z.of_nat (length l1 + 1 + length mid) - 1)%Z by lia.
    rewrite <- !app_assoc in *. simpl in *.
    rewrite IH; [| lia | rewrite length_app in Hmid; simpl in Hmid; lia].
    rewrite reverse_cons, reverse_app. simpl.
    rewrite <- !app_assoc. reflexivity.
Qed.

Lemma reverse_in_place_rev (a : list string) :
  reverse_in_place a = Some (reverse a).
Proof.
  unfold reverse_in_place.
  pose proof (swap_loop_spec (length a) [] a []) as H.
  simpl in H. rewrite !app_nil_r in H. apply H; [reflexivity | lia].
Qed.

Lemma append_cons (c : ascii) (s t : string) :
  String c s +:+ t = String c (s +:+ t).
Proof. reflexivity. Qed.

Lemma append_nil_l (s : string) : "" +:+ s = s.
Proof. reflexivity. Qed.

Lemma append_assoc (s t u : string) : (s +:+ t) +:+ u = s +:+ t +:+ u.
Proof.
  induction s as [|c s IH]; [reflexivity|].
  by rewrite !append_cons, IH.
Qed.

Lemma append_nil_r (s : string) : s +:+ "" = s.
Proof.
  induction s as [|c s IH]; [reflexivity|].
  by rewrite append_cons, IH.
Qed.

Lemma prefix_dot (c : ascii) (s : string) :
  String.prefix "." (String c s) = Ascii.eqb c ".".
Proof.
  change (String.prefix "." (String c s))
    with (if ascii_dec "." c then String.prefix "" s else false).
  destruct (ascii_dec "." c) as [<-|Hne].
  - rewrite Ascii.eqb_refl. destruct s; reflexivity.
  - symmetry. apply Ascii.eqb_neq. congruence.
Qed.

Lemma Split_scan_last (s : string) : forall cur,
  no_dot s = true -> Split_scan "." 0 cur s = [cur +:+ s].
Proof.
  induction s as [|c s IH]; intros cur Hs.
  - simpl. by rewrite append_nil_r.
  - cbn [Split_scan]. rewrite prefix_dot.
    simpl in Hs. apply andb_true_iff in Hs as [Hc Hs].
    apply negb_true_iff in Hc. rewrite Hc.
    rewrite IH by assumption. by rewrite append_assoc.
Qed.

Lemma Split_scan_piece (s : string) : forall cur t,
  no_dot s = true ->
  Split_scan "." 0 cur (s +:+ "." +:+ t) = (cur +:+ s) :: Split_scan "." 0 "" t.
Proof.
  induction s as [|c s IH]; intros cur t Hs.
  - rewrite append_nil_l, append_cons, append_nil_l, append_nil_r.
    cbn [Split_scan]. rewrite prefix_dot. reflexivity.
  - rewrite append_cons. cbn [Split_scan]. rewrite prefix_dot.
    simpl in Hs. apply andb_true_iff in Hs as [Hc Hs].
    apply negb_true_iff in Hc. rewrite Hc.
    rewrite IH by assumption. by rewrite append_assoc.
Qed.

Lemma uitoa_no_dot (b : Byte.byte) : no_dot (uitoa (byte_val b)) = true.
Proof. destruct b; vm_compute; reflexivity. Qed.

Lemma parseOctet_uitoa (b : Byte.byte) : parseOctet (uitoa (byte_val b)) = Some b.
Proof. destruct b; vm_compute; reflexivity. Qed.

Lemma Split_dotted (a b c d : Byte.byte) :
  Split (dotted a b c d) "."
  = [uitoa (byte_val a); uitoa (byte_val b); uitoa (byte_val c); uitoa (byte_val d)].
Proof.
  unfold Split, dotted.
  rewrite !Split_scan_piece by apply uitoa_no_dot.
  rewrite Split_scan_last by apply uitoa_no_dot.
  reflexivity.
Qed.

Lemma To4_Some_shape (ip p : IP) :
  To4 ip = Some p ->
  exists a b c d, p = [a; b; c; d] /\ length ip <> 0.
Proof.
  unfold To4, IPv4len, IPv6len.
  destruct (Nat.eqb_spec (length ip) 4) as [H4|H4].
  - intros [= <-]. destruct ip as [|a [|b [|c [|d [|]]]]]; simplify_eq/=.
    exists a, b, c, d. split; [reflexivity | lia].
  - destruct (Nat.eqb_spec (length ip) 16) as [H16|H16]; simpl; [|discriminate].
    destruct (isZeros (take 10 ip) && byte_at ip 10 xff && byte_at ip 11 xff);
      [|discriminate].
    intros [= <-].
    do 16 (destruct ip as [|? ip]; [discriminate H16|]).
    destruct ip; [|discriminate H16]. simpl.
    eexists _, _, _, _. split; [reflexivity | lia].
Qed.

Lemma IP_String_To4 (ip : IP) (a b c d : Byte.byte) :
  To4 ip = Some [a; b; c; d] -> IP_String ip = dotted a b c d.
Proof.
  intros H. unfold IP_String. rewrite H.
  destruct (To4_Some_shape _ _ H) as (? & ? & ? & ? & _ & Hn).
  destruct (Nat.eqb_spec (length ip) 0); [contradiction | reflexivity].
Qed.

Lemma Reverse_To4 (ip : IP) (a b c d : Byte.byte) :
  To4 ip = Some [a; b; c; d] -> Reverse ip = dotted d c b a.
Proof.
  intros H. unfold Reverse. rewrite H.
  rewrite (IP_String_To4 _ _ _ _ _ H), Split_dotted, reverse_in_place_rev.
  reflexivity.
Qed.

Lemma To4_IPv4 (a b c d : Byte.byte) : To4 (IPv4 a b c d) = Some [a; b; c; d].
Proof. reflexivity. Qed.

Lemma parseIPv4_dotted (a b c d : Byte.byte) :
  parseIPv4 (dotted a b c d) = Some (IPv4 a b c d).
Proof.
  unfold parseIPv4. rewrite Split_dotted, !parseOctet_uitoa. reflexivity.
Qed.

(** ** Octet reversal *)

(** The example of the source comment: 64.233.171.108 becomes
    108.171.233.64, in the 4-byte and in the 16-byte form. *)
Example Reverse_doc_example :
  Reverse [x40; xe9; xab; x6c] = "108.171.233.64" /\
  Reverse (IPv4 x40 xe9 xab x6c) = "108.171.233.64".
Proof. split; reflexivity. Qed.

(** C8. For every address with an IPv4 form, reading the reversed string
    back as a dotted quad and reversing again gives the dotted quad of
    the address; 192.168.1.1 reverses to 1.1.168.192; an address with no
    IPv4 form (IPv6 included) reverses to the empty string; and the swap
    loop never indexes out of range, so [Reverse] returns on every input. *)
Theorem Reverse_round_trip :
  (forall ip : IP, notNil (To4 ip) = true ->
     exists ip' : IP,
       parseIPv4 (Reverse ip) = Some ip' /\ Reverse ip' = IP_String ip) /\
  Reverse [xc0; xa8; x01; x01] = "1.1.168.192" /\
  (forall ip : IP, To4 ip = None -> Reverse ip = "") /\
  (forall ip : IP,
     reverse_in_place (Split (IP_String ip) ".")
     = Some (reverse (Split (IP_String ip) "."))).
Proof.
  repeat split.
  - intros ip Hip.
    destruct (To4 ip) as [p|] eqn:Hp; [clear Hip | discriminate Hip].
    destruct (To4_Some_shape _ _ Hp) as (a & b & c & d & -> & _).
    exists (IPv4 d c b a). split.
    + rewrite (Reverse_To4 _ _ _ _ _ Hp). apply parseIPv4_dotted.
    + rewrite (Reverse_To4 _ _ _ _ _ (To4_IPv4 d c b a)).
      symmetry. by apply IP_String_To4.
  - intros ip Hip. unfold Reverse. by rewrite Hip.
  - intros ip. apply reverse_in_place_rev.
Qed.

Lemma Reverse_round_trip_witness :
  (exists ip' : IP,
     parseIPv4 (Reverse (IPv4 x40 xe9 xab x6c)) = Some ip' /\
     Reverse ip' = IP_String (IPv4 x40 xe9 xab x6c)) /\
  Reverse [x20; x01; x0d; xb8; x00; x00; x00; x00;
           x00; x00; x00; x00; x00; x00; x00; x01] = "".
Proof.
  split.
  - apply (proj1 Reverse_round_trip). reflexivity.
  - apply (proj1 (proj2 (proj2 Reverse_round_trip))). reflexivity.
Defined.

(** ** Lookups *)

Section GorblFacts.

Context {error context_Context World : Type}.
Variable context_Background : context_Context.
Variable net_Resolver : Resolver error context_Context World.

Implicit Types (r : RBL error context_Context World) (ctx : context_Context).
Implicit Types (ip : IP) (w : World) (err : option error).
Implicit Types (f : Result error).

Local Abbreviation queryName r ip := (Sprintf_s_dot_s (Reverse ip) (hostname r)).

Local Ltac run := unfold mbind', mreturn; cbn [fst snd].

Lemma after_TXT_S (rs : Resolver error context_Context World) ctx name k w :
  after_TXT rs ctx name (S k) w
  = after_TXT rs ctx name k (LookupTXT rs ctx name w).2.
Proof. unfold after_TXT. by rewrite Nat.iter_succ_r. Qed.

(** The findings of the loop over the answers: one per answer, in order;
    the [k]-th carries the first value of the [k]-th TXT resolution when
    TXT lookups are on, and the error of the host resolution. *)
Lemma LookupIP_range_spec r ctx ip name err (addrs : list string) :
  forall (acc : list (Result error)) w,
    LookupIP_range r ctx ip name err addrs acc w
    = (acc ++ imap (fun k addr =>
                      {| Address := IP_String ip; Listed := true;
                         ListedAddress := addr;
                         Text := if lookupTxt r
                                 then List.hd "" (TXT_values (resolver r) ctx name
                                        (after_TXT (resolver r) ctx name k w))
                                 else "";
                         Error := notNil err; ErrorType := err |}) addrs,
       if lookupTxt r
       then after_TXT (resolver r) ctx name (length addrs) w
       else w).
Proof.
  induction addrs as [|addr addrs IH]; intros acc w.
  - cbn. rewrite app_nil_r. by destruct (lookupTxt r).
  - cbn [LookupIP_range]. run.
    destruct (lookupTxt r) eqn:Htxt.
    + destruct (LookupTXT (resolver r) ctx name w) as [[txt terr] w'] eqn:HT.
      rewrite IH, <- app_assoc. cbn [imap app length].
      rewrite after_TXT_S, HT. cbn [snd]. f_equal. f_equal. f_equal.
      * change (after_TXT (resolver r) ctx name 0 w) with w.
        unfold TXT_values. rewrite HT. cbn [fst].
        by destruct txt, err.
      * apply imap_ext. intros k x _. unfold compose.
        by rewrite after_TXT_S, HT.
    + run. rewrite IH, <- app_assoc. cbn [imap app]. f_equal. f_equal.
      f_equal. by destruct err.
Qed.

(** [LookupIP] when the host resolution answers nothing. *)
Lemma LookupIP_no_answer r ctx ip w err w1 :
  LookupHost (resolver r) ctx (queryName r ip) w = (([], err), w1) ->
  RBL_LookupIP r ctx ip w
  = ({| List := hostname r; Host := IP_String ip;
        Results := [ {| Address := IP_String ip; Listed := false;
                        ListedAddress := ""; Text := "";
                        Error := notNil err; ErrorType := err |} ] |}, w1).
Proof.
  intros H. unfold RBL_LookupIP. run. rewrite H. cbn. by destruct err.
Qed.

(** [LookupIP] when the host resolution answers at least once. *)
Lemma LookupIP_answers r ctx ip w (addrs : list string) err w1 :
  LookupHost (resolver r) ctx (queryName r ip) w = ((addrs, err), w1) ->
  1 <= length addrs ->
  RBL_LookupIP r ctx ip w
  = ({| List := hostname r; Host := IP_String ip;
        Results :=
          imap (fun k addr =>
                  {| Address := IP_String ip; Listed := true;
                     ListedAddress := addr;
                     Text := if lookupTxt r
                             then List.hd "" (TXT_values (resolver r) ctx
                                    (queryName r ip)
                                    (after_TXT (resolver r) ctx
                                       (queryName r ip) k w1))
                             else "";
                     Error := notNil err; ErrorType := err |}) addrs |},
     if lookupTxt r
     then after_TXT (resolver r) ctx (queryName r ip) (length addrs) w1
     else w1).
Proof.
  intros H Hn. unfold RBL_LookupIP. run. rewrite H.
  destruct (Nat.ltb_spec (length addrs) 1) as [Hlt|_]; [lia|].
  rewrite LookupIP_range_spec. reflexivity.
Qed.

(** C1. When the host resolution of the query name answers no address,
    [LookupIP] returns exactly one finding, not listed, with empty listed
    address and text; if the resolution reported an error the finding has
    its error flag set and carries that error, otherwise neither. *)
Theorem LookupIP_unlisted r ctx ip w err w1 :
  LookupHost (resolver r) ctx (queryName r ip) w = (([], err), w1) ->
  exists f,
    Results (RBL_LookupIP r ctx ip w).1 = [f] /\
    Listed f = false /\ ListedAddress f = "" /\ Text f = "" /\
    (err <> None -> Error f = true /\ ErrorType f = err) /\
    (err = None -> Error f = false /\ ErrorType f = None).
Proof.
  intros H. rewrite (LookupIP_no_answer _ _ _ _ _ _ H). cbn.
  eexists. split; [reflexivity|]. cbn.
  repeat split; try (by destruct err); by intros ->.
Qed.

(** C2. With TXT lookups off and N >= 1 answers, [LookupIP] returns N
    findings, the k-th for the k-th answer: listed, with that answer as
    listed address and an empty text. *)
Theorem LookupIP_listed_no_TXT r ctx ip w (addrs : list string) err w1 :
  lookupTxt r = false ->
  LookupHost (resolver r) ctx (queryName r ip) w = ((addrs, err), w1) ->
  1 <= length addrs ->
  length (Results (RBL_LookupIP r ctx ip w).1) = length addrs /\
  forall k addr, addrs !! k = Some addr ->
    exists f, Results (RBL_LookupIP r ctx ip w).1 !! k = Some f /\
      Listed f = true /\ ListedAddress f = addr /\ Text f = "".
Proof.
  intros Htxt H Hn. rewrite (LookupIP_answers _ _ _ _ _ _ _ H Hn). cbn.
  split; [apply length_imap|].
  intros k addr Hk. rewrite list_lookup_imap, Hk. cbn.
  eexists. split; [reflexivity|]. cbn. by rewrite Htxt.
Qed.

(** C4. When the host resolution returns answers together with an error,
    every finding (there is one per answer) has its error flag set and
    carries that error. *)
Theorem LookupIP_error_on_all r ctx ip w (addrs : list string) (e : error) w1 :
  LookupHost (resolver r) ctx (queryName r ip) w = ((addrs, Some e), w1) ->
  1 <= length addrs ->
  length (Results (RBL_LookupIP r ctx ip w).1) = length addrs /\
  forall f, f ∈ Results (RBL_LookupIP r ctx ip w).1 ->
    Error f = true /\ ErrorType f = Some e.
Proof.
  intros H Hn. rewrite (LookupIP_answers _ _ _ _ _ _ _ H Hn). cbn.
  split; [apply length_imap|].
  intros f (k & addr & -> & _)%elem_of_lookup_imap. by cbn.
Qed.

(** Two resolvers whose TXT resolutions answer the same values and leave
    the same state reach the same states, whatever errors they report. *)
Lemma after_TXT_agree (rs rs' : Resolver error context_Context World) ctx name :
  (forall c n w, (LookupTXT rs' c n w).2 = (LookupTXT rs c n w).2) ->
  forall k w, after_TXT rs' ctx name k w = after_TXT rs ctx name k w.
Proof.
  intros Hst k. induction k as [|k IH]; intros w; [reflexivity|].
  by rewrite !after_TXT_S, Hst, IH.
Qed.

(** C3. With TXT lookups on and N >= 1 answers, the k-th finding's text
    is the first value answered by the TXT resolution made for it (the
    k-th one after the host resolution), or empty when that resolution
    answered no value; so when the TXT answer for the query name does
    not change over time, every finding has its first value as text.
    The error flag and cause of a finding are those of the host
    resolution, and replacing the errors reported by TXT resolutions by
    any others leaves the result unchanged. *)
Theorem LookupIP_text_from_TXT r ctx ip w (addrs : list string) err w1 :
  lookupTxt r = true ->
  LookupHost (resolver r) ctx (queryName r ip) w = ((addrs, err), w1) ->
  1 <= length addrs ->
  (forall k f, Results (RBL_LookupIP r ctx ip w).1 !! k = Some f ->
     Text f = List.hd "" (TXT_values (resolver r) ctx (queryName r ip)
                (after_TXT (resolver r) ctx (queryName r ip) k w1)) /\
     Error f = notNil err /\ ErrorType f = err) /\
  (forall txt : list string,
     (forall w', TXT_values (resolver r) ctx (queryName r ip) w' = txt) ->
     forall f, f ∈ Results (RBL_LookupIP r ctx ip w).1 ->
       Text f = List.hd "" txt) /\
  (forall r',
     hostname r' = hostname r -> lookupTxt r' = true ->
     (forall c n w', LookupHost (resolver r') c n w'
                     = LookupHost (resolver r) c n w') ->
     (forall c n w', (LookupTXT (resolver r') c n w').1.1
                     = (LookupTXT (resolver r) c n w').1.1) ->
     (forall c n w', (LookupTXT (resolver r') c n w').2
                     = (LookupTXT (resolver r) c n w').2) ->
     RBL_LookupIP r' ctx ip w = RBL_LookupIP r ctx ip w).
Proof.
  intros Htxt H Hn. rewrite (LookupIP_answers _ _ _ _ _ _ _ H Hn).
  rewrite Htxt. cbn [fst Results]. split; [|split].
  - intros k f (addr & _ & ->)%list_lookup_imap_Some. by cbn.
  - intros txt Hsame f (k & addr & -> & _)%elem_of_lookup_imap.
    cbn. by rewrite Hsame.
  - intros r' Hhost Htxt' Hh Hv Hs.
    assert (H' : LookupHost (resolver r') ctx (queryName r' ip) w
                 = ((addrs, err), w1)) by (by rewrite Hh, Hhost).
    rewrite (LookupIP_answers _ _ _ _ _ _ _ H' Hn), Htxt', Hhost.
    rewrite (after_TXT_agree _ _ _ _ Hs). f_equal. f_equal.
    apply imap_ext. intros k addr _. cbn. f_equal.
    unfold TXT_values. by rewrite Hv, (after_TXT_agree _ _ _ _ Hs).
Qed.

(** The loop of [Lookup] runs [LookupIP] on the addresses that have an
    IPv4 form, in order, and appends the findings of each run. *)
Lemma Lookup_range_spec r ctx (addrs : list IPAddr) :
  forall (acc : list (Result error)) w,
    Lookup_range r ctx addrs acc w
    = (acc ++ List.concat (List.map Results
                (run_each (RBL_LookupIP r ctx)
                   (List.filter (fun a => notNil (To4 a))
                      (List.map IPAddr_IP addrs)) w).1),
       (run_each (RBL_LookupIP r ctx)
          (List.filter (fun a => notNil (To4 a))
             (List.map IPAddr_IP addrs)) w).2).
Proof.
  induction addrs as [|addr addrs IH]; intros acc w.
  - cbn. by rewrite app_nil_r.
  - cbn [Lookup_range List.map List.filter].
    destruct (notNil (To4 (IPAddr_IP addr))).
    + cbn [run_each]. run.
      destruct (RBL_LookupIP r ctx (IPAddr_IP addr) w) as [q w'].
      rewrite IH.
      destruct (run_each _ _ w') as [subs w'']. cbn.
      by rewrite <- app_assoc.
    + apply IH.
Qed.

(** C5. When the resolution of the host name succeeds, [Lookup] keeps
    the addresses that have an IPv4 form, runs [LookupIP] once on each in
    resolution order, and returns the findings of these runs appended in
    that order; addresses without an IPv4 form add nothing, so a host
    with none of the former has no finding. *)
Theorem Lookup_IPv4_only r ctx (host : string) w (addrs : list IPAddr) w1 :
  LookupIPAddr (resolver r) ctx host w = ((addrs, None), w1) ->
  Results (RBL_Lookup r ctx host w).1
  = List.concat (List.map Results
      (run_each (RBL_LookupIP r ctx)
         (List.filter (fun a => notNil (To4 a)) (List.map IPAddr_IP addrs))
         w1).1) /\
  (RBL_Lookup r ctx host w).2
  = (run_each (RBL_LookupIP r ctx)
       (List.filter (fun a => notNil (To4 a)) (List.map IPAddr_IP addrs))
       w1).2 /\
  ((forall a, a ∈ addrs -> To4 (IPAddr_IP a) = None) ->
   Results (RBL_Lookup r ctx host w).1 = []).
Proof.
  intros H. unfold RBL_Lookup. run. rewrite H. cbn [notNil].
  rewrite Lookup_range_spec. cbn. split; [reflexivity|]. split; [reflexivity|].
  intros Hv6.
  replace (List.filter (fun a => notNil (To4 a)) (List.map IPAddr_IP addrs))
    with (@nil IP); [reflexivity|].
  clear H. induction addrs as [|a addrs IH]; [reflexivity|].
  cbn. rewrite (Hv6 a) by apply list_elem_of_here. cbn.
  apply IH. intros b Hb. apply Hv6. by apply list_elem_of_further.
Qed.

(** C6. When the resolution of the host name reports an error, or
    answers no address, [Lookup] returns the zone, the host name and an
    empty sequence of findings: the error appears nowhere in the result. *)
Theorem Lookup_host_failure r ctx (host : string) w (addrs : list IPAddr) err w1 :
  LookupIPAddr (resolver r) ctx host w = ((addrs, err), w1) ->
  err <> None \/ addrs = [] ->
  RBL_Lookup r ctx host w
  = ({| List := hostname r; Host := host; Results := [] |}, w1).
Proof.
  intros H Hfail. unfold RBL_Lookup. run. rewrite H.
  destruct err as [e|]; [reflexivity|].
  destruct Hfail as [Hne| ->]; [by destruct Hne|]. reflexivity.
Qed.

Lemma LookupIP_List_Host r ctx ip w :
  List (RBL_LookupIP r ctx ip w).1 = hostname r /\
  Host (RBL_LookupIP r ctx ip w).1 = IP_String ip.
Proof.
  unfold RBL_LookupIP. run.
  destruct (LookupHost _ _ _ w) as [[addrs err] w1].
  destruct (length addrs <? 1)%nat; [by cbn|].
  by destruct (LookupIP_range _ _ _ _ _ _ _ w1).
Qed.

Lemma Lookup_List_Host r ctx (host : string) w :
  List (RBL_Lookup r ctx host w).1 = hostname r /\
  Host (RBL_Lookup r ctx host w).1 = host.
Proof.
  unfold RBL_Lookup. run.
  destruct (LookupIPAddr _ _ _ w) as [[addrs err] w1].
  destruct (notNil err); [by cbn|].
  by destruct (Lookup_range _ _ _ _ w1).
Qed.

(** C7. Whatever the resolver answers, the result of [LookupIP] names the
    client's zone and the text form of the address, and the result of
    [Lookup] names the client's zone and the host name; so a client for
    b.barracudacentral.org looking up smtp.gmail.com returns these two. *)
Theorem result_List_and_Host :
  (forall r ctx ip w,
     List (RBL_LookupIP r ctx ip w).1 = hostname r /\
     Host (RBL_LookupIP r ctx ip w).1 = IP_String ip) /\
  (forall r ctx (host : string) w,
     List (RBL_Lookup r ctx host w).1 = hostname r /\
     Host (RBL_Lookup r ctx host w).1 = host) /\
  (forall ctx w,
     let res := (RBL_Lookup (NewRBL net_Resolver "b.barracudacentral.org" true)
                   ctx "smtp.gmail.com" w).1 in
     List res = "b.barracudacentral.org" /\ Host res = "smtp.gmail.com").
Proof.
  split; [|split].
  - apply LookupIP_List_Host.
  - apply Lookup_List_Host.
  - intros ctx w. apply Lookup_List_Host.
Qed.

(** ** The invariant of findings *)

Lemma LookupIP_findings_ok r ctx ip w :
  Forall finding_ok (Results (RBL_LookupIP r ctx ip w).1).
Proof.
  destruct (LookupHost (resolver r) ctx (queryName r ip) w)
    as [[addrs err] w1] eqn:H.
  destruct addrs as [|addr addrs].
  - rewrite (LookupIP_no_answer _ _ _ _ _ _ H). cbn.
    constructor; [|constructor].
    split; cbn; [done | by destruct err].
  - rewrite (LookupIP_answers _ _ _ _ _ _ _ H) by (cbn; lia).
    cbn [fst Results]. apply Forall_forall.
    intros f (k & a & -> & _)%elem_of_lookup_imap.
    split; cbn; [done | by destruct err].
Qed.

Lemma Lookup_range_findings_ok r ctx (addrs : list IPAddr) :
  forall (acc : list (Result error)) w,
    Forall finding_ok acc ->
    Forall finding_ok (Lookup_range r ctx addrs acc w).1.
Proof.
  induction addrs as [|addr addrs IH]; intros acc w Hacc; [done|].
  cbn [Lookup_range]. destruct (notNil (To4 (IPAddr_IP addr))); [|by apply IH].
  run. pose proof (LookupIP_findings_ok r ctx (IPAddr_IP addr) w) as Hq.
  destruct (RBL_LookupIP r ctx (IPAddr_IP addr) w) as [q w'].
  apply IH. by apply Forall_app.
Qed.

(** C9. Every finding returned by [LookupIP] or by [Lookup] satisfies the
    invariant: a finding that is not listed has an empty listed address
    and an empty text, and a finding with its error flag set carries an
    error. *)
Theorem findings_invariant r ctx :
  (forall ip w f, f ∈ Results (RBL_LookupIP r ctx ip w).1 ->
     (Listed f = false -> ListedAddress f = "" /\ Text f = "") /\
     (Error f = true -> ErrorType f <> None)) /\
  (forall (host : string) w f, f ∈ Results (RBL_Lookup r ctx host w).1 ->
     (Listed f = false -> ListedAddress f = "" /\ Text f = "") /\
     (Error f = true -> ErrorType f <> None)).
Proof.
  split.
  - intros ip w f Hf.
    by apply (proj1 (Forall_forall _ _) (LookupIP_findings_ok r ctx ip w)).
  - intros host w f Hf.
    assert (Hall : Forall finding_ok (Results (RBL_Lookup r ctx host w).1)).
    { unfold RBL_Lookup. run.
      destruct (LookupIPAddr _ _ _ w) as [[addrs err] w1].
      destruct (notNil err); [by cbn|].
      pose proof (Lookup_range_findings_ok r ctx addrs [] w1 (List.Forall_nil _)) as Hr.
      by destruct (Lookup_range _ _ _ _ w1). }
    by apply (proj1 (Forall_forall _ _) Hall).
Qed.

(** ** The free functions against the client *)

Section SameResponses.

(** The context under which the client runs answers as the background
    context, under which the free functions run. *)
Variable ctx0 : context_Context.
Hypothesis same_Host : forall name w,
  LookupHost net_Resolver ctx0 name w
  = LookupHost net_Resolver context_Background name w.
Hypothesis same_TXT : forall name w,
  LookupTXT net_Resolver ctx0 name w
  = LookupTXT net_Resolver context_Background name w.
Hypothesis same_IPAddr : forall name w,
  LookupIPAddr net_Resolver ctx0 name w
  = LookupIPAddr net_Resolver context_Background name w.

Lemma query_range_LookupIP_range (rbl : string) (txt : bool) ip name err
    (addrs : list string) :
  forall (acc : list (Result error)) w,
    query_range context_Background net_Resolver ip txt name err addrs acc w
    = LookupIP_range (NewRBL net_Resolver rbl txt) ctx0 ip name err addrs acc w.
Proof.
  induction addrs as [|addr addrs IH]; intros acc w; [reflexivity|].
  cbn [query_range LookupIP_range NewRBL lookupTxt resolver]. run.
  destruct txt.
  - unfold net_LookupTXT. run. rewrite same_TXT.
    destruct (LookupTXT net_Resolver context_Background name w) as [[t e] w'].
    apply IH.
  - apply IH.
Qed.

Lemma query_LookupIP (rbl : string) (txt : bool) ip w :
  query context_Background net_Resolver rbl ip txt w
  = (Results (RBL_LookupIP (NewRBL net_Resolver rbl txt) ctx0 ip w).1,
     (RBL_LookupIP (NewRBL net_Resolver rbl txt) ctx0 ip w).2).
Proof.
  unfold query, RBL_LookupIP, net_LookupHost. run.
  cbn [NewRBL hostname resolver]. rewrite same_Host.
  destruct (LookupHost net_Resolver context_Background _ w) as [[addrs err] w1].
  destruct (length addrs <? 1)%nat.
  - cbn. by destruct err.
  - rewrite (query_range_LookupIP_range rbl).
    by destruct (LookupIP_range _ _ _ _ _ _ _ w1).
Qed.

Lemma Lookup_old_range_Lookup_range (rbl : string) (txt : bool)
    (addrs : list IPAddr) :
  forall (acc : list (Result error)) w,
    Lookup_old_range context_Background net_Resolver rbl txt
      (List.map IPAddr_IP addrs) acc w
    = Lookup_range (NewRBL net_Resolver rbl txt) ctx0 addrs acc w.
Proof.
  induction addrs as [|addr addrs IH]; intros acc w; [reflexivity|].
  cbn [Lookup_old_range Lookup_range List.map].
  destruct (notNil (To4 (IPAddr_IP addr))); [|apply IH].
  run. rewrite query_LookupIP.
  destruct (RBL_LookupIP _ ctx0 (IPAddr_IP addr) w) as [q w']. apply IH.
Qed.

Lemma Lookup_RBL_Lookup (rbl host : string) (txt : bool) w :
  Lookup context_Background net_Resolver rbl host txt w
  = RBL_Lookup (NewRBL net_Resolver rbl txt) ctx0 host w.
Proof.
  unfold Lookup, RBL_Lookup, net_LookupIP. run.
  cbn [NewRBL hostname resolver]. rewrite same_IPAddr.
  destruct (LookupIPAddr net_Resolver context_Background host w)
    as [[addrs err] w1].
  destruct err as [e|]; [reflexivity|]. cbn [notNil]. run. cbn [notNil Results].
  by rewrite Lookup_old_range_Lookup_range.
Qed.

End SameResponses.

(** C10. Run against the same resolver responses, the free functions and
    the client of [NewRBL] agree: [query] returns the findings of
    [LookupIP], and [Lookup] returns the result of the client's [Lookup]
    (same zone, host and findings), both leaving the same state. *)
Theorem free_functions_agree_with_client ctx :
  (forall name w, LookupHost net_Resolver ctx name w
                  = LookupHost net_Resolver context_Background name w) ->
  (forall name w, LookupTXT net_Resolver ctx name w
                  = LookupTXT net_Resolver context_Background name w) ->
  (forall name w, LookupIPAddr net_Resolver ctx name w
                  = LookupIPAddr net_Resolver context_Background name w) ->
  (forall (rbl : string) (txt : bool) ip w,
     query context_Background net_Resolver rbl ip txt w
     = (Results (RBL_LookupIP (NewRBL net_Resolver rbl txt) ctx ip w).1,
        (RBL_LookupIP (NewRBL net_Resolver rbl txt) ctx ip w).2)) /\
  (forall (rbl host : string) (txt : bool) w,
     Lookup context_Background net_Resolver rbl host txt w
     = RBL_Lookup (NewRBL net_Resolver rbl txt) ctx host w).
Proof.
  intros Hh Ht Hi. split.
  - intros. by apply query_LookupIP.
  - intros. by apply Lookup_RBL_Lookup.
Qed.

End GorblFacts.

(** ** The properties on the scripted resolver *)

(** Two answers with TXT lookups on: the TXT resolution is made once per
    answer, and here the second one fails, so the texts differ. *)
Example demo_LookupIP_listed :
  List.map (fun f => (ListedAddress f, Text f, Error f))
    (Results (RBL_LookupIP (demo_RBL true) tt [xc0; xa8; x01; x01] 0).1)
  = [("127.0.0.2", "listed, see bl.example.org", false);
     ("127.0.0.4", "", false)].
Proof. reflexivity. Qed.

(** A host with an IPv4, an IPv6 and a 16-byte IPv4 address: findings for
    the first and the third only. *)
Example demo_Lookup_mixed :
  List.map (fun f => (Address f, Listed f, ListedAddress f))
    (Results (RBL_Lookup (demo_RBL false) tt "mail.example.org" 0).1)
  = [("192.168.1.1", true, "127.0.0.2"); ("192.168.1.1", true, "127.0.0.4");
     ("1.2.3.4", true, "127.0.0.9")].
Proof. reflexivity. Qed.

Lemma LookupIP_unlisted_witness :
  exists f,
    Results (RBL_LookupIP (demo_RBL true) tt [x08; x09; x09; x09] 0).1 = [f] /\
    Listed f = false /\ ListedAddress f = "" /\ Text f = "" /\
    (Some "no such host" <> None ->
     Error f = true /\ ErrorType f = Some "no such host") /\
    (Some "no such host" = None -> Error f = false /\ ErrorType f = None).
Proof.
  apply (LookupIP_unlisted (demo_RBL true) tt [x08; x09; x09; x09] 0
           (Some "no such host") 1).
  vm_compute. reflexivity.
Defined.

Lemma LookupIP_listed_no_TXT_witness :
  length (Results (RBL_LookupIP (demo_RBL false) tt [xc0; xa8; x01; x01] 0).1)
  = 2 /\
  forall k addr, ["127.0.0.2"; "127.0.0.4"] !! k = Some addr ->
    exists f,
      Results (RBL_LookupIP (demo_RBL false) tt [xc0; xa8; x01; x01] 0).1 !! k
      = Some f /\
      Listed f = true /\ ListedAddress f = addr /\ Text f = "".
Proof.
  apply (LookupIP_listed_no_TXT (demo_RBL false) tt [xc0; xa8; x01; x01] 0
           ["127.0.0.2"; "127.0.0.4"] None 1).
  - reflexivity.
  - vm_compute. reflexivity.
  - simpl. lia.
Defined.

Lemma LookupIP_text_from_TXT_witness :
  let f := {| Address := "192.168.1.1"; Listed := true;
              ListedAddress := "127.0.0.4"; Text := "";
              Error := false; ErrorType := @None string |} in
  Text f = List.hd "" (TXT_values demo_Resolver tt "1.1.168.192.bl.example.org"
             (after_TXT demo_Resolver tt "1.1.168.192.bl.example.org" 1 1)) /\
  Error f = false /\ ErrorType f = None.
Proof.
  apply (proj1 (LookupIP_text_from_TXT (demo_RBL true) tt [xc0; xa8; x01; x01] 0
                  ["127.0.0.2"; "127.0.0.4"] None 1
                  eq_refl ltac:(vm_compute; reflexivity) ltac:(simpl; lia)) 1).
  vm_compute. reflexivity.
Defined.

Lemma LookupIP_error_on_all_witness :
  length (Results (RBL_LookupIP (demo_RBL true) tt [x01; x02; x03; x04] 0).1)
  = 1 /\
  forall f, f ∈ Results (RBL_LookupIP (demo_RBL true) tt [x01; x02; x03; x04] 0).1 ->
    Error f = true /\ ErrorType f = Some "server misbehaving".
Proof.
  apply (LookupIP_error_on_all (demo_RBL true) tt [x01; x02; x03; x04] 0
           ["127.0.0.9"] "server misbehaving" 1).
  - vm_compute. reflexivity.
  - simpl. lia.
Defined.

Lemma Lookup_IPv4_only_witness :
  Results (RBL_Lookup (demo_RBL true) tt "mail.example.org" 0).1
  = List.concat (List.map Results
      (run_each (RBL_LookupIP (demo_RBL true) tt)
         [[xc0; xa8; x01; x01]; IPv4 x01 x02 x03 x04] 1).1).
Proof.
  apply (proj1 (Lookup_IPv4_only (demo_RBL true) tt "mail.example.org" 0
                  demo_addrs 1 eq_refl)).
Defined.

Lemma Lookup_host_failure_witness :
  RBL_Lookup (demo_RBL true) tt "down.example.org" 0
  = ({| List := "bl.example.org"; Host := "down.example.org"; Results := [] |}, 1).
Proof.
  apply (Lookup_host_failure (demo_RBL true) tt "down.example.org" 0
           [] (Some "no such host") 1).
  - reflexivity.
  - left. discriminate.
Defined.

Lemma findings_invariant_witness :
  let f := {| Address := "8.9.9.9"; Listed := false; ListedAddress := "";
              Text := ""; Error := true; ErrorType := Some "no such host" |} in
  (Listed f = false -> ListedAddress f = "" /\ Text f = "") /\
  (Error f = true -> ErrorType f <> None).
Proof.
  apply (proj1 (findings_invariant (demo_RBL true) tt) [x08; x09; x09; x09] 0).
  vm_compute. apply list_elem_of_here.
Defined.

Lemma free_functions_agree_with_client_witness :
  Lookup tt demo_Resolver "bl.example.org" "mail.example.org" true 0
  = RBL_Lookup (NewRBL demo_Resolver "bl.example.org" true) tt
      "mail.example.org" 0.
Proof.
  apply (proj2 (free_functions_agree_with_client tt demo_Resolver tt
                  ltac:(reflexivity) ltac:(reflexivity) ltac:(reflexivity))).
Defined.

(** * Further properties *)

(** ** More on [Reverse] *)

Lemma string_length_append (s t : string) :
  String.length (s +:+ t) = String.length s + String.length t.
Proof.
  induction s as [|c s IH]; [reflexivity|].
  rewrite append_cons. cbn [String.length]. by rewrite IH.
Qed.

Lemma uitoa_byte_length (b : Byte.byte) :
  1 <= String.length (uitoa (byte_val b)) <= 3.
Proof. destruct b; vm_compute; lia. Qed.

Lemma dotted_length (a b c d : Byte.byte) :
  7 <= String.length (dotted a b c d) <= 15.
Proof.
  unfold dotted. rewrite !string_length_append.
  pose proof (uitoa_byte_length a). pose proof (uitoa_byte_length b).
  pose proof (uitoa_byte_length c). pose proof (uitoa_byte_length d).
  change (String.length ".") with 1. lia.
Qed.

Lemma dotted_inj (a b c d a' b' c' d' : Byte.byte) :
  dotted a b c d = dotted a' b' c' d' ->
  a = a' /\ b = b' /\ c = c' /\ d = d'.
Proof.
  intros H. pose proof (parseIPv4_dotted a b c d) as Hp.
  rewrite H, parseIPv4_dotted in Hp. unfold IPv4 in Hp. by simplify_eq.
Qed.

(** X1. The reversed string of an address with IPv4 form a.b.c.d is the
    dotted quad d.c.b.a of its octets in decimal, so the 4-byte and the
    16-byte form of one address reverse to the same string. *)
Theorem Reverse_octets (ip : IP) (a b c d : Byte.byte) :
  To4 ip = Some [a; b; c; d] ->
  Reverse ip
  = uitoa (byte_val d) +:+ "." +:+ uitoa (byte_val c) +:+ "." +:+
    uitoa (byte_val b) +:+ "." +:+ uitoa (byte_val a) /\
  Reverse ip = Reverse [a; b; c; d] /\
  Reverse ip = Reverse (IPv4 a b c d).
Proof.
  intros H. rewrite (Reverse_To4 _ _ _ _ _ H).
  split; [reflexivity|]. split; symmetry.
  - by apply Reverse_To4.
  - apply Reverse_To4, To4_IPv4.
Qed.

Lemma Reverse_octets_witness :
  Reverse (IPv4 x0a x00 x01 xfe)
  = uitoa (byte_val xfe) +:+ "." +:+ uitoa (byte_val x01) +:+ "." +:+
    uitoa (byte_val x00) +:+ "." +:+ uitoa (byte_val x0a) /\
  Reverse (IPv4 x0a x00 x01 xfe) = Reverse [x0a; x00; x01; xfe] /\
  Reverse (IPv4 x0a x00 x01 xfe) = Reverse (IPv4 x0a x00 x01 xfe).
Proof.
  apply (Reverse_octets (IPv4 x0a x00 x01 xfe) x0a x00 x01 xfe). reflexivity.
Defined.

(** X2. The empty string is returned for exactly the addresses without
    an IPv4 form: no IPv4 address reverses to the empty string. *)
Theorem Reverse_empty_iff (ip : IP) : Reverse ip = "" <-> To4 ip = None.
Proof.
  split.
  - intros Hr. destruct (To4 ip) as [p|] eqn:Hp; [|reflexivity].
    destruct (To4_Some_shape _ _ Hp) as (a & b & c & d & -> & _).
    rewrite (Reverse_To4 _ _ _ _ _ Hp) in Hr.
    pose proof (dotted_length d c b a) as Hl. rewrite Hr in Hl.
    cbn in Hl. lia.
  - intros Hp. unfold Reverse. by rewrite Hp.
Qed.

(** X3. Two addresses with an IPv4 form that reverse to the same string
    have the same four octets: distinct IPv4 addresses give distinct
    query names. *)
Theorem Reverse_injective (ip ip' : IP) :
  notNil (To4 ip) = true -> notNil (To4 ip') = true ->
  Reverse ip = Reverse ip' -> To4 ip = To4 ip'.
Proof.
  intros H H' Hr.
  destruct (To4 ip) as [p|] eqn:Hp; [clear H | discriminate H].
  destruct (To4 ip') as [p'|] eqn:Hp'; [clear H' | discriminate H'].
  destruct (To4_Some_shape _ _ Hp) as (a & b & c & d & -> & _).
  destruct (To4_Some_shape _ _ Hp') as (a' & b' & c' & d' & -> & _).
  rewrite (Reverse_To4 _ _ _ _ _ Hp), (Reverse_To4 _ _ _ _ _ Hp') in Hr.
  apply dotted_inj in Hr as (-> & -> & -> & ->). reflexivity.
Qed.

Lemma Reverse_injective_witness :
  To4 [x7f; x00; x00; x02] = To4 (IPv4 x7f x00 x00 x02).
Proof.
  apply (Reverse_injective [x7f; x00; x00; x02] (IPv4 x7f x00 x00 x02));
    reflexivity.
Defined.

(** X4. The reversed string of an address with an IPv4 form is between 7
    and 15 characters long. *)
Theorem Reverse_length (ip : IP) :
  notNil (To4 ip) = true ->
  7 <= String.length (Reverse ip) <= 15.
Proof.
  intros H. destruct (To4 ip) as [p|] eqn:Hp; [clear H | discriminate H].
  destruct (To4_Some_shape _ _ Hp) as (a & b & c & d & -> & _).
  rewrite (Reverse_To4 _ _ _ _ _ Hp). apply dotted_length.
Qed.

Lemma Reverse_length_witness :
  7 <= String.length (Reverse [xff; xff; xff; xff]) <= 15.
Proof. apply (Reverse_length [xff; xff; xff; xff]). reflexivity. Defined.

(** ** More on the client *)

Section GorblMore.

Context {error context_Context World : Type}.

Implicit Types (r : RBL error context_Context World) (ctx : context_Context).
Implicit Types (ip : IP) (w : World) (err : option error).
Implicit Types (f : Result error).

Local Abbreviation queryName r ip := (Sprintf_s_dot_s (Reverse ip) (hostname r)).

Lemma map_imap {A B C} (g : B -> C) (l : list A) :
  forall h : nat -> A -> B,
    List.map g (imap h l) = imap (fun k x => g (h k x)) l.
Proof.
  induction l as [|x l IH]; intros h; [reflexivity|].
  cbn. f_equal. apply IH.
Qed.

Lemma LookupIP_Address r ctx ip w f :
  f ∈ Results (RBL_LookupIP r ctx ip w).1 -> Address f = IP_String ip.
Proof.
  destruct (LookupHost (resolver r) ctx (queryName r ip) w)
    as [[addrs err] w1] eqn:H.
  destruct addrs as [|addr addrs].
  - rewrite (LookupIP_no_answer _ _ _ _ _ _ H). cbn.
    by intros ->%list_elem_of_singleton.
  - rewrite (LookupIP_answers _ _ _ _ _ _ _ H) by (cbn; lia).
    cbn [fst Results].
    by intros (k & a & -> & _)%elem_of_lookup_imap.
Qed.

Lemma LookupIP_length r ctx ip w (addrs : list string) err w1 :
  LookupHost (resolver r) ctx (queryName r ip) w = ((addrs, err), w1) ->
  length (Results (RBL_LookupIP r ctx ip w).1) = Nat.max 1 (length addrs).
Proof.
  intros H. destruct addrs as [|addr addrs].
  - by rewrite (LookupIP_no_answer _ _ _ _ _ _ H).
  - rewrite (LookupIP_answers _ _ _ _ _ _ _ H) by (cbn; lia).
    cbn [fst Results]. rewrite length_imap. cbn. lia.
Qed.

Lemma LookupIP_some_finding r ctx ip w :
  1 <= length (Results (RBL_LookupIP r ctx ip w).1).
Proof.
  destruct (LookupHost (resolver r) ctx (queryName r ip) w)
    as [[addrs err] w1] eqn:H.
  rewrite (LookupIP_length _ _ _ _ _ _ _ H). lia.
Qed.

(** X5. Whatever the host resolution answers, [LookupIP] returns one
    finding per answer, or one finding when there is no answer, never
    none; each is about the text form of the address looked up and is
    listed exactly when there was an answer. *)
Theorem LookupIP_findings_shape r ctx ip w (addrs : list string) err w1 :
  LookupHost (resolver r) ctx (queryName r ip) w = ((addrs, err), w1) ->
  length (Results (RBL_LookupIP r ctx ip w).1) = Nat.max 1 (length addrs) /\
  forall f, f ∈ Results (RBL_LookupIP r ctx ip w).1 ->
    Address f = IP_String ip /\
    Listed f = negb (Nat.eqb (length addrs) 0).
Proof.
  intros H. split; [exact (LookupIP_length _ _ _ _ _ _ _ H)|].
  intros f Hf. split; [by apply LookupIP_Address in Hf|].
  revert Hf. destruct addrs as [|addr addrs].
  - rewrite (LookupIP_no_answer _ _ _ _ _ _ H). cbn.
    by intros ->%list_elem_of_singleton.
  - rewrite (LookupIP_answers _ _ _ _ _ _ _ H) by (cbn; lia).
    cbn [fst Results].
    by intros (k & a & -> & _)%elem_of_lookup_imap.
Qed.

(** X6. [LookupIP] makes one host resolution and then, when TXT lookups
    are on, one TXT resolution of the query name per answer; with TXT
    lookups off, or with no answer, it makes no TXT resolution. *)
Theorem LookupIP_TXT_resolutions r ctx ip w (addrs : list string) err w1 :
  LookupHost (resolver r) ctx (queryName r ip) w = ((addrs, err), w1) ->
  (RBL_LookupIP r ctx ip w).2
  = after_TXT (resolver r) ctx (queryName r ip)
      (if lookupTxt r then length addrs else 0) w1.
Proof.
  intros H. destruct addrs as [|addr addrs].
  - rewrite (LookupIP_no_answer _ _ _ _ _ _ H). by destruct (lookupTxt r).
  - rewrite (LookupIP_answers _ _ _ _ _ _ _ H) by (cbn; lia).
    by destruct (lookupTxt r).
Qed.

Lemma after_TXT_agree_at (rs rs' : Resolver error context_Context World)
    ctx (name : string) :
  (forall w, LookupTXT rs' ctx name w = LookupTXT rs ctx name w) ->
  forall k w, after_TXT rs' ctx name k w = after_TXT rs ctx name k w.
Proof.
  intros Hst k. induction k as [|k IH]; intros w; [reflexivity|].
  by rewrite !after_TXT_S, Hst, IH.
Qed.

(** X7. [LookupIP] reads the resolver only at the query name, the
    reversed address followed by a dot and the zone: two clients for the
    same zone and TXT setting whose resolvers answer the host resolution
    of that name alike, and its TXT resolution alike when TXT lookups
    are on, return the same result and leave the same state, however
    else the resolvers differ. *)
Theorem LookupIP_reads_query_name_only r r' ctx ip w :
  hostname r' = hostname r ->
  lookupTxt r' = lookupTxt r ->
  (forall w', LookupHost (resolver r') ctx (queryName r ip) w'
              = LookupHost (resolver r) ctx (queryName r ip) w') ->
  (lookupTxt r = true ->
   forall w', LookupTXT (resolver r') ctx (queryName r ip) w'
              = LookupTXT (resolver r) ctx (queryName r ip) w') ->
  RBL_LookupIP r' ctx ip w = RBL_LookupIP r ctx ip w.
Proof.
  intros Hhost Htxt Hh Ht.
  destruct (LookupHost (resolver r) ctx (queryName r ip) w)
    as [[addrs err] w1] eqn:H.
  assert (H' : LookupHost (resolver r') ctx (queryName r' ip) w
               = ((addrs, err), w1)) by (by rewrite Hhost, Hh).
  destruct addrs as [|addr addrs].
  - rewrite (LookupIP_no_answer _ _ _ _ _ _ H),
      (LookupIP_no_answer _ _ _ _ _ _ H'). by rewrite Hhost.
  - rewrite (LookupIP_answers _ _ _ _ _ _ _ H) by (cbn; lia).
    rewrite (LookupIP_answers _ _ _ _ _ _ _ H') by (cbn; lia).
    rewrite Hhost, Htxt. destruct (lookupTxt r); [|reflexivity].
    specialize (Ht eq_refl).
    rewrite (after_TXT_agree_at _ _ _ _ Ht). f_equal. f_equal.
    apply imap_ext. intros k a _. cbn. f_equal.
    unfold TXT_values. by rewrite Ht, (after_TXT_agree_at _ _ _ _ Ht).
Qed.

(** X8. For an address without an IPv4 form [LookupIP] is not guarded:
    the query name is a dot followed by the zone, the same for all such
    addresses, so two of them get findings that differ in nothing but
    the address they are about. *)
Theorem LookupIP_without_IPv4_form r ctx ip ip' w :
  To4 ip = None -> To4 ip' = None ->
  queryName r ip = "." +:+ hostname r /\
  List.map finding_data (Results (RBL_LookupIP r ctx ip w).1)
  = List.map finding_data (Results (RBL_LookupIP r ctx ip' w).1) /\
  (RBL_LookupIP r ctx ip w).2 = (RBL_LookupIP r ctx ip' w).2.
Proof.
  intros Hip Hip'.
  assert (Hq : queryName r ip = "." +:+ hostname r).
  { unfold Reverse. by rewrite Hip. }
  assert (Hq' : queryName r ip' = queryName r ip).
  { unfold Reverse. by rewrite Hip, Hip'. }
  split; [exact Hq|].
  destruct (LookupHost (resolver r) ctx (queryName r ip) w)
    as [[addrs err] w1] eqn:H.
  assert (H' : LookupHost (resolver r) ctx (queryName r ip') w
               = ((addrs, err), w1)) by (by rewrite Hq').
  destruct addrs as [|addr addrs].
  - by rewrite (LookupIP_no_answer _ _ _ _ _ _ H),
      (LookupIP_no_answer _ _ _ _ _ _ H').
  - rewrite (LookupIP_answers _ _ _ _ _ _ _ H) by (cbn; lia).
    rewrite (LookupIP_answers _ _ _ _ _ _ _ H') by (cbn; lia).
    cbn [fst snd Results]. rewrite !map_imap, Hq'. split; reflexivity.
Qed.

(** Each result of [run_each] is the result of running the function on
    the element at the same place, in some state. *)
Lemma run_each_Forall2 {A B} (g : A -> M World B) (l : list A) :
  forall w, Forall2 (fun x y => exists w', y = (g x w').1) l (run_each g l w).1.
Proof.
  induction l as [|x l IH]; intros w; [constructor|].
  cbn [run_each]. unfold mbind', mreturn.
  destruct (g x w) as [y w'] eqn:Hg.
  specialize (IH w'). destruct (run_each g l w') as [ys w''].
  constructor; [|exact IH].
  exists w. by rewrite Hg.
Qed.

Lemma elem_of_filter_To4 (addrs : list IPAddr) (x : IP) :
  x ∈ List.filter (fun a => notNil (To4 a)) (List.map IPAddr_IP addrs) <->
  exists a, a ∈ addrs /\ IPAddr_IP a = x /\ notNil (To4 x) = true.
Proof.
  rewrite list_elem_of_In, filter_In, in_map_iff. split.
  - intros [(a & <- & Ha) Hx]. exists a. by rewrite list_elem_of_In.
  - intros (a & Ha & <- & Hx). split; [|done].
    exists a. by rewrite <- list_elem_of_In.
Qed.

Lemma Lookup_success r ctx (host : string) w (addrs : list IPAddr) w1 :
  LookupIPAddr (resolver r) ctx host w = ((addrs, None), w1) ->
  RBL_Lookup r ctx host w
  = ({| List := hostname r; Host := host;
        Results := List.concat (List.map Results
          (run_each (RBL_LookupIP r ctx)
             (List.filter (fun a => notNil (To4 a)) (List.map IPAddr_IP addrs))
             w1).1) |},
     (run_each (RBL_LookupIP r ctx)
        (List.filter (fun a => notNil (To4 a)) (List.map IPAddr_IP addrs))
        w1).2).
Proof.
  intros H. unfold RBL_Lookup, mbind', mreturn. rewrite H. cbn [notNil].
  by rewrite Lookup_range_spec.
Qed.

Lemma Lookup_error r ctx (host : string) w (addrs : list IPAddr)
    (e : error) w1 :
  LookupIPAddr (resolver r) ctx host w = ((addrs, Some e), w1) ->
  RBL_Lookup r ctx host w
  = ({| List := hostname r; Host := host; Results := [] |}, w1).
Proof. intros H. unfold RBL_Lookup, mbind', mreturn. by rewrite H. Qed.

(** X9. Every finding [Lookup] returns is about one of the addresses the
    host name resolved to, one with an IPv4 form: its address field is
    the text form of that address. *)
Theorem Lookup_findings_addresses r ctx (host : string) w
    (addrs : list IPAddr) err w1 :
  LookupIPAddr (resolver r) ctx host w = ((addrs, err), w1) ->
  forall f, f ∈ Results (RBL_Lookup r ctx host w).1 ->
    exists a, a ∈ addrs /\ notNil (To4 (IPAddr_IP a)) = true /\
              Address f = IP_String (IPAddr_IP a).
Proof.
  intros H f. destruct err as [e|].
  - rewrite (Lookup_error _ _ _ _ _ _ _ H).
    cbn. by intros ?%not_elem_of_nil.
  - rewrite (Lookup_success _ _ _ _ _ _ H). cbn [fst Results].
    rewrite list_elem_of_In, in_concat.
    intros (fs & (sub & <- & Hsub)%in_map_iff & Hf).
    pose proof (run_each_Forall2 (RBL_LookupIP r ctx)
      (List.filter (fun a => notNil (To4 a)) (List.map IPAddr_IP addrs)) w1)
      as Hall.
    apply list_elem_of_In, list_elem_of_lookup in Hsub as [i Hi].
    destruct (Forall2_lookup_r _ _ _ _ _ Hall Hi) as (x & Hx & w' & ->).
    apply list_elem_of_lookup_2, elem_of_filter_To4 in Hx
      as (a & Ha & <- & Ht).
    exists a. split; [done|]. split; [done|].
    apply (LookupIP_Address r ctx _ w'). by apply list_elem_of_In.
Qed.

Lemma concat_length_ge (subs : list (RBLResults error)) :
  Forall (fun sub => 1 <= length (Results sub)) subs ->
  length subs <= length (List.concat (List.map Results subs)).
Proof.
  induction 1 as [|sub subs Hsub _ IH]; [done|].
  cbn. rewrite length_app. lia.
Qed.

(** X10. When the resolution of the host name succeeds, every address
    with an IPv4 form it answered has at least one finding about it in
    the result of [Lookup], so there are at least as many findings as
    such addresses. *)
Theorem Lookup_covers_IPv4_addresses r ctx (host : string) w
    (addrs : list IPAddr) w1 :
  LookupIPAddr (resolver r) ctx host w = ((addrs, None), w1) ->
  (forall a, a ∈ addrs -> notNil (To4 (IPAddr_IP a)) = true ->
     exists f, f ∈ Results (RBL_Lookup r ctx host w).1 /\
               Address f = IP_String (IPAddr_IP a)) /\
  length (List.filter (fun a => notNil (To4 a)) (List.map IPAddr_IP addrs))
  <= length (Results (RBL_Lookup r ctx host w).1).
Proof.
  intros H. rewrite (Lookup_success _ _ _ _ _ _ H). cbn [fst Results].
  pose proof (run_each_Forall2 (RBL_LookupIP r ctx)
    (List.filter (fun a => notNil (To4 a)) (List.map IPAddr_IP addrs)) w1)
    as Hall.
  split.
  - intros a Ha Ht.
    assert (Hx : IPAddr_IP a ∈ List.filter (fun a => notNil (To4 a))
                                 (List.map IPAddr_IP addrs)).
    { apply elem_of_filter_To4. by exists a. }
    apply list_elem_of_lookup in Hx as [i Hi].
    destruct (Forall2_lookup_l _ _ _ _ _ Hall Hi) as (sub & Hsub & w' & ->).
    pose proof (LookupIP_some_finding r ctx (IPAddr_IP a) w') as Hne.
    destruct (Results (RBL_LookupIP r ctx (IPAddr_IP a) w').1)
      as [|f fs] eqn:Hfs; [cbn in Hne; lia|].
    assert (Hf : f ∈ Results (RBL_LookupIP r ctx (IPAddr_IP a) w').1)
      by (rewrite Hfs; apply list_elem_of_here).
    exists f. split; [|by apply LookupIP_Address in Hf].
    apply list_elem_of_In, in_concat.
    exists (Results (RBL_LookupIP r ctx (IPAddr_IP a) w').1). split.
    + apply in_map, list_elem_of_In. by apply list_elem_of_lookup_2 in Hsub.
    + by apply list_elem_of_In.
  - rewrite (Forall2_length _ _ _ Hall). apply concat_length_ge.
    apply Forall_forall. intros sub [i Hi]%list_elem_of_lookup.
    destruct (Forall2_lookup_r _ _ _ _ _ Hall Hi) as (x & _ & w' & ->).
    apply LookupIP_some_finding.
Qed.

(** ** The free functions of the earlier revision *)

Variable context_Background : context_Context.
Variable net_Resolver : Resolver error context_Context World.

Lemma free_query_is_LookupIP (rbl : string) (txt : bool) ip w :
  query context_Background net_Resolver rbl ip txt w
  = (Results (RBL_LookupIP (NewRBL net_Resolver rbl txt)
                context_Background ip w).1,
     (RBL_LookupIP (NewRBL net_Resolver rbl txt) context_Background ip w).2).
Proof. by apply query_LookupIP. Qed.

Lemma free_Lookup_is_client (rbl host : string) (txt : bool) w :
  Lookup context_Background net_Resolver rbl host txt w
  = RBL_Lookup (NewRBL net_Resolver rbl txt) context_Background host w.
Proof. by apply Lookup_RBL_Lookup. Qed.

Lemma Lookup_findings_ok r ctx (host : string) w :
  Forall finding_ok (Results (RBL_Lookup r ctx host w).1).
Proof.
  unfold RBL_Lookup, mbind', mreturn.
  destruct (LookupIPAddr _ _ _ w) as [[addrs err] w1].
  destruct (notNil err); [by cbn|].
  pose proof (Lookup_range_findings_ok r ctx addrs [] w1 (List.Forall_nil _)) as Hr.
  by destruct (Lookup_range _ _ _ _ w1).
Qed.

(** X11. The free function [Lookup] always returns the list and the host
    it was given; when the resolution of the host name reports an error
    or answers no address it returns no finding and resolves nothing
    else. *)
Theorem free_Lookup_result (rblList targetHost : string) (lookupTxt : bool) w :
  List (Lookup context_Background net_Resolver rblList targetHost lookupTxt w).1
  = rblList /\
  Host (Lookup context_Background net_Resolver rblList targetHost lookupTxt w).1
  = targetHost /\
  forall (addrs : list IPAddr) err w1,
    LookupIPAddr net_Resolver context_Background targetHost w
    = ((addrs, err), w1) ->
    err <> None \/ addrs = [] ->
    Lookup context_Background net_Resolver rblList targetHost lookupTxt w
    = ({| List := rblList; Host := targetHost; Results := [] |}, w1).
Proof.
  rewrite free_Lookup_is_client.
  split; [apply (Lookup_List_Host (NewRBL net_Resolver rblList lookupTxt))|].
  split; [apply (Lookup_List_Host (NewRBL net_Resolver rblList lookupTxt))|].
  intros addrs err w1 H Hfail. destruct err as [e|].
  - by rewrite (Lookup_error (NewRBL net_Resolver rblList lookupTxt)
                  _ _ _ _ _ _ H).
  - destruct Hfail as [Hne| ->]; [by destruct Hne|].
    by rewrite (Lookup_success (NewRBL net_Resolver rblList lookupTxt)
                  _ _ _ _ _ H).
Qed.

(** X12. The free function [query] returns at least one finding, each
    about the text form of the address; its findings, and those of the
    free function [Lookup], satisfy the invariant of findings: not
    listed implies empty listed address and text, error flag set implies
    an error is attached. *)
Theorem free_functions_findings (rbl : string) (lookupTxt : bool) :
  (forall ip w,
     1 <= length (query context_Background net_Resolver rbl ip lookupTxt w).1 /\
     forall f, f ∈ (query context_Background net_Resolver rbl ip lookupTxt w).1 ->
       Address f = IP_String ip /\
       (Listed f = false -> ListedAddress f = "" /\ Text f = "") /\
       (Error f = true -> ErrorType f <> None)) /\
  (forall (host : string) w f,
     f ∈ Results (Lookup context_Background net_Resolver rbl host lookupTxt w).1 ->
     (Listed f = false -> ListedAddress f = "" /\ Text f = "") /\
     (Error f = true -> ErrorType f <> None)).
Proof.
  split.
  - intros ip w. rewrite free_query_is_LookupIP. cbn [fst].
    split; [apply LookupIP_some_finding|].
    intros f Hf. split; [by apply LookupIP_Address in Hf|].
    by apply (proj1 (Forall_forall _ _)
                (LookupIP_findings_ok (NewRBL net_Resolver rbl lookupTxt)
                   context_Background ip w)).
  - intros host w f. rewrite free_Lookup_is_client. intros Hf.
    by apply (proj1 (Forall_forall _ _)
                (Lookup_findings_ok (NewRBL net_Resolver rbl lookupTxt)
                   context_Background host w)).
Qed.

(** ** The command-line program *)

Variable net_ParseIP : string -> option IP.
Variable Printf_plus_v : Result error -> string.

Local Abbreviation run_main :=
  (main context_Background net_Resolver net_ParseIP Printf_plus_v).
Local Abbreviation mailspike := (NewRBL net_Resolver "bl.mailspike.net" true).

Lemma nonempty_length (s : string) :
  s <> "" -> (0 <? String.length s)%nat = true.
Proof. by destruct s. Qed.

(** X13. On a usage error ([main] given both a host and an IP, or
    neither, or an IP that does not parse) [main] writes the one message
    for that error and makes no resolution at all. *)
Theorem main_usage_errors (host ip : string) w :
  (host <> "" -> ip <> "" ->
   main context_Background net_Resolver net_ParseIP Printf_plus_v host ip w
   = (["Only one of IP or host can be supplied"], w)) /\
  (main context_Background net_Resolver net_ParseIP Printf_plus_v "" "" w
   = (["One of IP or host must be supplied"], w)) /\
  (ip <> "" -> net_ParseIP ip = None ->
   main context_Background net_Resolver net_ParseIP Printf_plus_v "" ip w
   = (["Supplied IP unable to be parsed"], w)).
Proof.
  unfold main, main_lookup, mbind', mreturn. repeat split.
  - intros Hh Hi. by rewrite (nonempty_length _ Hh), (nonempty_length _ Hi).
  - intros Hi Hp. by rewrite (nonempty_length _ Hi), Hp.
Qed.

(** X14. Given a host only, [main] writes one line per finding of
    [Lookup] on the zone bl.mailspike.net, in order; so it writes
    nothing at all when the resolution of the host name reports an
    error or answers no address with an IPv4 form. *)
Theorem main_host_mode (host : string) w :
  host <> "" ->
  main context_Background net_Resolver net_ParseIP Printf_plus_v host "" w
  = (List.map Printf_plus_v
       (Results (RBL_Lookup mailspike context_Background host w).1),
     (RBL_Lookup mailspike context_Background host w).2) /\
  forall (addrs : list IPAddr) err w1,
    LookupIPAddr net_Resolver context_Background host w = ((addrs, err), w1) ->
    err <> None \/ (forall a, a ∈ addrs -> To4 (IPAddr_IP a) = None) ->
    main context_Background net_Resolver net_ParseIP Printf_plus_v host "" w
    = ([], w1).
Proof.
  intros Hh.
  assert (Hrun : run_main host "" w
    = (List.map Printf_plus_v
         (Results (RBL_Lookup mailspike context_Background host w).1),
       (RBL_Lookup mailspike context_Background host w).2)).
  { unfold main, main_lookup, mbind', mreturn.
    rewrite (nonempty_length _ Hh). cbn.
    by destruct (RBL_Lookup mailspike context_Background host w). }
  split; [exact Hrun|].
  intros addrs err w1 H Hfail. rewrite Hrun. destruct err as [e|].
  - by rewrite (Lookup_error mailspike _ _ _ _ _ _ H).
  - destruct Hfail as [Hne|Hv6]; [by destruct Hne|].
    rewrite (Lookup_success mailspike _ _ _ _ _ H).
    replace (List.filter (fun a => notNil (To4 a)) (List.map IPAddr_IP addrs))
      with (@nil IP); [reflexivity|].
    clear H. induction addrs as [|a addrs IH]; [reflexivity|].
    cbn. rewrite (Hv6 a) by apply list_elem_of_here. cbn.
    apply IH. intros b Hb. apply Hv6. by apply list_elem_of_further.
Qed.

(** X15. Given an IP only, one that parses, [main] writes one line per
    finding of [LookupIP] on the zone bl.mailspike.net, at least one
    line; for a parsed address without an IPv4 form the name resolved
    is .bl.mailspike.net, and with no answer for it the one line is
    that of an unlisted finding carrying the error of the resolution. *)
Theorem main_ip_mode (ip : string) (parsedIP : IP) w :
  ip <> "" -> net_ParseIP ip = Some parsedIP ->
  main context_Background net_Resolver net_ParseIP Printf_plus_v "" ip w
  = (List.map Printf_plus_v
       (Results (RBL_LookupIP mailspike context_Background parsedIP w).1),
     (RBL_LookupIP mailspike context_Background parsedIP w).2) /\
  1 <= length (main context_Background net_Resolver net_ParseIP
                 Printf_plus_v "" ip w).1 /\
  (To4 parsedIP = None ->
   forall err w1,
     LookupHost net_Resolver context_Background ".bl.mailspike.net" w
     = (([], err), w1) ->
     main context_Background net_Resolver net_ParseIP Printf_plus_v "" ip w
     = ([Printf_plus_v {| Address := IP_String parsedIP; Listed := false;
                          ListedAddress := ""; Text := "";
                          Error := notNil err; ErrorType := err |}], w1)).
Proof.
  intros Hi Hp.
  assert (Hrun : run_main "" ip w
    = (List.map Printf_plus_v
         (Results (RBL_LookupIP mailspike context_Background parsedIP w).1),
       (RBL_LookupIP mailspike context_Background parsedIP w).2)).
  { unfold main, main_lookup, mbind', mreturn.
    rewrite (nonempty_length _ Hi), Hp. cbn.
    by destruct (RBL_LookupIP mailspike context_Background parsedIP w). }
  split; [exact Hrun|]. rewrite Hrun. cbn [fst]. split.
  - rewrite length_map. apply LookupIP_some_finding.
  - intros H4 err w1 H.
    assert (H' : LookupHost (resolver mailspike) context_Background
                   (queryName mailspike parsedIP) w = (([], err), w1)).
    { unfold Reverse. rewrite H4. exact H. }
    by rewrite (LookupIP_no_answer _ _ _ _ _ _ H').
Qed.

End GorblMore.

(** ** The further properties on the scripted resolvers *)

Lemma LookupIP_findings_shape_witness :
  length (Results (RBL_LookupIP (demo_RBL true) tt [xc0; xa8; x01; x01] 0).1)
  = Nat.max 1 2 /\
  forall f, f ∈ Results (RBL_LookupIP (demo_RBL true) tt [xc0; xa8; x01; x01] 0).1 ->
    Address f = IP_String [xc0; xa8; x01; x01] /\
    Listed f = negb (Nat.eqb 2 0).
Proof.
  apply (LookupIP_findings_shape (demo_RBL true) tt [xc0; xa8; x01; x01] 0
           ["127.0.0.2"; "127.0.0.4"] None 1).
  vm_compute. reflexivity.
Defined.

Lemma LookupIP_TXT_resolutions_witness :
  (RBL_LookupIP (demo_RBL true) tt [xc0; xa8; x01; x01] 0).2
  = after_TXT demo_Resolver tt "1.1.168.192.bl.example.org" 2 1.
Proof.
  apply (LookupIP_TXT_resolutions (demo_RBL true) tt [xc0; xa8; x01; x01] 0
           ["127.0.0.2"; "127.0.0.4"] None 1).
  vm_compute. reflexivity.
Defined.

Lemma LookupIP_reads_query_name_only_witness :
  RBL_LookupIP (NewRBL demo_Resolver_other "bl.example.org" false) tt
    [xc0; xa8; x01; x01] 0
  = RBL_LookupIP (demo_RBL false) tt [xc0; xa8; x01; x01] 0.
Proof.
  apply (LookupIP_reads_query_name_only (demo_RBL false)
           (NewRBL demo_Resolver_other "bl.example.org" false) tt
           [xc0; xa8; x01; x01] 0).
  - reflexivity.
  - reflexivity.
  - intros w'. reflexivity.
  - intros Hon. discriminate Hon.
Defined.

Lemma LookupIP_without_IPv4_form_witness :
  Sprintf_s_dot_s (Reverse demo_IPv6) (hostname (demo_RBL true))
  = "." +:+ hostname (demo_RBL true) /\
  List.map finding_data (Results (RBL_LookupIP (demo_RBL true) tt demo_IPv6 0).1)
  = List.map finding_data (Results (RBL_LookupIP (demo_RBL true) tt [] 0).1) /\
  (RBL_LookupIP (demo_RBL true) tt demo_IPv6 0).2
  = (RBL_LookupIP (demo_RBL true) tt [] 0).2.
Proof.
  apply (LookupIP_without_IPv4_form (demo_RBL true) tt demo_IPv6 [] 0);
    reflexivity.
Defined.

Lemma Lookup_findings_addresses_witness :
  exists a, a ∈ demo_addrs /\ notNil (To4 (IPAddr_IP a)) = true /\
    Address {| Address := "1.2.3.4"; Listed := true;
               ListedAddress := "127.0.0.9"; Text := "";
               Error := true; ErrorType := Some "server misbehaving" |}
    = IP_String (IPAddr_IP a).
Proof.
  apply (Lookup_findings_addresses (demo_RBL false) tt "mail.example.org" 0
           demo_addrs None 1 eq_refl).
  vm_compute. apply list_elem_of_further, list_elem_of_further, list_elem_of_here.
Defined.

Lemma Lookup_covers_IPv4_addresses_witness :
  (forall a, a ∈ demo_addrs -> notNil (To4 (IPAddr_IP a)) = true ->
     exists f, f ∈ Results (RBL_Lookup (demo_RBL true) tt "mail.example.org" 0).1 /\
               Address f = IP_String (IPAddr_IP a)) /\
  length (List.filter (fun a => notNil (To4 a)) (List.map IPAddr_IP demo_addrs))
  <= length (Results (RBL_Lookup (demo_RBL true) tt "mail.example.org" 0).1).
Proof.
  apply (Lookup_covers_IPv4_addresses (demo_RBL true) tt "mail.example.org" 0
           demo_addrs 1).
  reflexivity.
Defined.

Lemma main_host_mode_witness :
  main tt demo_mailspike demo_ParseIP demo_Printf "down.example.org" "" 0
  = (List.map demo_Printf
       (Results (RBL_Lookup (NewRBL demo_mailspike "bl.mailspike.net" true) tt
                   "down.example.org" 0).1),
     (RBL_Lookup (NewRBL demo_mailspike "bl.mailspike.net" true) tt
        "down.example.org" 0).2) /\
  forall (addrs : list IPAddr) err w1,
    LookupIPAddr demo_mailspike tt "down.example.org" 0 = ((addrs, err), w1) ->
    err <> None \/ (forall a, a ∈ addrs -> To4 (IPAddr_IP a) = None) ->
    main tt demo_mailspike demo_ParseIP demo_Printf "down.example.org" "" 0
    = ([], w1).
Proof.
  apply (main_host_mode tt demo_mailspike demo_ParseIP demo_Printf
           "down.example.org" 0).
  discriminate.
Defined.

Lemma main_ip_mode_witness :
  main tt demo_mailspike demo_ParseIP demo_Printf "" "2001:db8::1" 0
  = (List.map demo_Printf
       (Results (RBL_LookupIP (NewRBL demo_mailspike "bl.mailspike.net" true) tt
                   demo_IPv6 0).1),
     (RBL_LookupIP (NewRBL demo_mailspike "bl.mailspike.net" true) tt
        demo_IPv6 0).2) /\
  1 <= length (main tt demo_mailspike demo_ParseIP demo_Printf
                 "" "2001:db8::1" 0).1 /\
  (To4 demo_IPv6 = None ->
   forall err w1,
     LookupHost demo_mailspike tt ".bl.mailspike.net" 0 = (([], err), w1) ->
     main tt demo_mailspike demo_ParseIP demo_Printf "" "2001:db8::1" 0
     = ([demo_Printf {| Address := IP_String demo_IPv6; Listed := false;
                        ListedAddress := ""; Text := "";
                        Error := notNil err; ErrorType := err |}], w1)).
Proof.
  apply (main_ip_mode tt demo_mailspike demo_ParseIP demo_Printf
           "2001:db8::1" demo_IPv6 0).
  - discriminate.
  - reflexivity.
Defined.

(** What the program writes for 192.168.1.1 and for an IPv6 literal. *)
Example demo_main_output :
  (main tt demo_mailspike demo_ParseIP demo_Printf "" "192.168.1.1" 0).1
  = ["192.168.1.1 listed as 127.0.0.10"] /\
  (main tt demo_mailspike demo_ParseIP demo_Printf "" "2001:db8::1" 0).1
  = ["2001:db8::1 not listed"].
Proof. split; reflexivity. Qed.
